(** * email_center: the command dispatch core of [command_processor.py]

    A shallow embedding of the command model, the registry, the parser
    ([parse_command]) and the dispatcher ([handle_command]), together
    with the Python string built-ins they call.

    Python [str] values are sequences of Unicode code points; they are
    modelled as [list N].  The built-ins [str.strip], [str.lstrip],
    [str.splitlines] and [str.split] are written out after CPython's
    behaviour.  [str.lower] depends on the Unicode case tables of the
    interpreter, which are not part of the repository: it is an
    interface ([CaseMapping]) whose laws are those the development
    uses, with the ASCII instance given below. *)

From Stdlib Require Import NArith String Ascii.
From stdpp Require Import gmap list.

Local Open Scope N_scope.

(** ** Python strings *)

Definition str := list N.

(** A literal: the code points of an ASCII string. *)
Definition U (s : string) : str := map N_of_ascii (list_ascii_of_string s).

(** Python truthiness of a sequence: [not xs] holds of the empty one. *)
Definition py_not {A} (xs : list A) : bool :=
  match xs with [] => true | _ => false end.

(** The code points for which [str.isspace] holds; [str.strip] and
    [str.split] without arguments use the same set. *)
Definition whitespace_code_points : list N :=
  [9; 10; 11; 12; 13; 28; 29; 30; 31; 32; 133; 160; 5760;
   8192; 8193; 8194; 8195; 8196; 8197; 8198; 8199; 8200; 8201; 8202;
   8232; 8233; 8239; 8287; 12288].

(** The line boundaries of [str.splitlines]. *)
Definition linebreak_code_points : list N :=
  [10; 11; 12; 13; 28; 29; 30; 133; 8232; 8233].

Definition mem (c : N) (cs : list N) : bool := existsb (N.eqb c) cs.

Definition isspace (c : N) : bool := mem c whitespace_code_points.
Definition is_linebreak (c : N) : bool := mem c linebreak_code_points.

Fixpoint drop_while (p : N → bool) (s : str) : str :=
  match s with
  | [] => []
  | c :: s' => if p c then drop_while p s' else s
  end.

(** [s.lstrip()], [s.rstrip()], [s.strip()]. *)
Definition str_lstrip (s : str) : str := drop_while isspace s.
Definition str_rstrip (s : str) : str := rev (drop_while isspace (rev s)).
Definition str_strip (s : str) : str := str_rstrip (str_lstrip s).

(** [s.lstrip(chars)]: drops the leading code points that occur in [chars]. *)
Definition str_lstrip_chars (chars s : str) : str :=
  drop_while (λ c, mem c chars) s.

(** [s.splitlines()]: [cur] is the current line, reversed.  A carriage
    return directly followed by a line feed is one boundary, and a final
    boundary opens no further line. *)
Fixpoint splitlines_from (cur : str) (s : str) : list str :=
  match s with
  | [] => if py_not cur then [] else [rev cur]
  | c :: s' =>
      if is_linebreak c then
        rev cur ::
          match s' with
          | c' :: s'' =>
              if (c =? 13) && (c' =? 10) then splitlines_from [] s''
              else splitlines_from [] s'
          | [] => splitlines_from [] s'
          end
      else splitlines_from (c :: cur) s'
  end.

Definition str_splitlines (s : str) : list str := splitlines_from [] s.

(** [s.split()]: the maximal runs of non-whitespace code points. *)
Fixpoint split_from (cur : str) (s : str) : list str :=
  match s with
  | [] => if py_not cur then [] else [rev cur]
  | c :: s' =>
      if isspace c then
        if py_not cur then split_from [] s' else rev cur :: split_from [] s'
      else split_from (c :: cur) s'
  end.

Definition str_split (s : str) : list str := split_from [] s.

(** The text before the first line boundary of [s]. *)
Fixpoint until_linebreak (s : str) : str :=
  match s with
  | [] => []
  | c :: s' => if is_linebreak c then [] else c :: until_linebreak s'
  end.

(** Strings made of whitespace only, strings free of whitespace, and
    strings free of line boundaries. *)
Definition blank (s : str) : bool := forallb isspace s.
Definition spaceless (s : str) : bool := forallb (λ c, negb (isspace c)) s.
Definition lineless (s : str) : bool := forallb (λ c, negb (is_linebreak c)) s.

(** [tokens s ts]: [ts] lists, in order, the maximal whitespace-free
    runs of [s].  Each token is preceded by whitespace only and is
    followed by the end of the string or by a whitespace code point. *)
Inductive tokens : str → list str → Prop :=
| tokens_nil ws :
    blank ws = true → tokens ws []
| tokens_cons ws t rest ts :
    blank ws = true →
    t ≠ [] →
    spaceless t = true →
    match rest with [] => True | c :: _ => isspace c = true end →
    tokens rest ts →
    tokens (ws ++ t ++ rest) (t :: ts).

(** The command line of a body: the first line of the trimmed text,
    trimmed again. *)
Definition command_line (body_text : str) : str :=
  str_strip (until_linebreak (str_strip body_text)).

(** [sep.join(xs)]. *)
Fixpoint str_join (sep : str) (xs : list str) : str :=
  match xs with
  | [] => []
  | [x] => x
  | x :: xs' => x ++ sep ++ str_join sep xs'
  end.

(** ASCII lowercasing of one code point. *)
Definition ascii_lower (c : N) : N :=
  if (65 <=? c) && (c <=? 90) then c + 32 else c.

Definition is_ascii (c : N) : bool := c <? 128.

(** The marker character of command names, the solidus. *)
Definition marker : N := 47.

(** [str.lower].  CPython lowers a string of ASCII code points byte by
    byte ([lower_ascii]); on other strings it follows the Unicode case
    tables.  The remaining laws hold of those tables: every code point
    lowers to a non-empty sequence, lowering a lowered string changes
    nothing, and only the solidus lowers to a string that starts with
    the solidus. *)
Class CaseMapping := {
  str_lower : str → str;
  lower_ascii s : forallb is_ascii s = true → str_lower s = map ascii_lower s;
  lower_idem s : str_lower (str_lower s) = str_lower s;
  lower_nil_inv s : str_lower s = [] → s = [];
  lower_head_marker s : head (str_lower s) = Some marker → head s = Some marker;
}.

(** ** Exceptions and results *)

(** An exception object: the name of its class, the [repr] of each of
    its arguments, and whether its class derives from [Exception]
    ([SystemExit], [KeyboardInterrupt] and [GeneratorExit] derive from
    [BaseException] only). *)
Record exn := mk_exn {
  exn_type : str;
  exn_args : list str;
  exn_is_Exception : bool;
}.

Definition IndexError : exn :=
  mk_exn (U "IndexError") [U "'list index out of range'"] true.

Inductive result (A : Type) : Type :=
| Ok (a : A)
| Raise (e : exn).
Arguments Ok {A} a.
Arguments Raise {A} e.

#[export] Instance result_ret : MRet result := λ A a, Ok a.
#[export] Instance result_bind : MBind result := λ A B k r,
  match r with
  | Ok a => k a
  | Raise e => Raise e
  end.

(** [xs[0]]. *)
Definition index0 {A} (xs : list A) : result A :=
  match xs with
  | x :: _ => Ok x
  | [] => Raise IndexError
  end.

(** ** Command model *)

Record Command := mk_Command {
  name : str;
  args : list str;
  raw_text : str;
}.

(** ** Python values *)

(** The values the dispatcher handles: what a handler receives and
    returns, the caller's [meta], and the outcome dictionary.  A [dict]
    keeps its items in insertion order. *)
#[warnings="-register-all"]
Inductive pyval : Type :=
| VNone
| VBool (b : bool)
| VInt (z : Z)
| VStr (s : str)
| VList (xs : list pyval)
| VTuple (xs : list pyval)
| VDict (items : list (str * pyval)).

(** [d.get(k)] on a dictionary given by its items. *)
Fixpoint assoc (k : str) (items : list (str * pyval)) : option pyval :=
  match items with
  | [] => None
  | (k', v) :: items' => if decide (k = k') then Some v else assoc k items'
  end.

Definition dict_get (d : pyval) (k : str) : option pyval :=
  match d with
  | VDict items => assoc k items
  | _ => None
  end.

(** [repr(e)] as [BaseException.__repr__] computes it: the class name
    followed by the arguments in parentheses. *)
Definition repr_exn (e : exn) : str :=
  exn_type e ++ U "(" ++ str_join (U ", ") (exn_args e) ++ U ")".

(** [repr(e)] for an exception of any class.  The call runs the
    [__repr__] of the class of [e], which is code like that of a
    handler: it returns a string, empty or not, or raises, it may
    change the world, and two calls need not agree. *)
Class PyRepr (World : Type) := py_repr : exn → World → result str * World.

(** The interpreter in which every class keeps the [__repr__] of
    [BaseException], as the exceptions of the standard library do. *)
Definition default_repr {World : Type} : PyRepr World :=
  λ e w, (Ok (repr_exn e), w).

(** [e] is of a class that keeps the [__repr__] of [BaseException]. *)
Definition has_default_repr {World : Type} {PR : PyRepr World} (e : exn) : Prop :=
  ∀ w, py_repr e w = (Ok (repr_exn e), w).

(** ** Logging *)

Inductive level := INFO | WARNING | ERROR.

(** One call of the logger: level, format string and positional fields. *)
Record log_record := mk_log {
  log_level : level;
  log_format : str;
  log_fields : list pyval;
}.

(** A parse result carried over to another body: name and arguments
    are kept, [raw_text] is the given body. *)
Definition with_raw_text (body_text : str) (r : result (option Command))
    : result (option Command) :=
  match r with
  | Ok (Some cmd) => Ok (Some (mk_Command (name cmd) (args cmd) body_text))
  | _ => r
  end.

Section CommandProcessor.
Context {CM : CaseMapping}.

(** The effects of a handler (network calls, processes, mail) act on
    an abstract world. *)
Context {World : Type}.

(** *** Normalisation *)

(** [name.strip().lstrip("/").lower()]. *)
Definition normalize_command_name (name : str) : str :=
  str_lower (str_lstrip_chars [marker] (str_strip name)).

(** *** Registry and decorator *)

(** A handler is called with its positional arguments; it returns a
    value or raises, and changes the world. *)
Definition handler : Type := list pyval → World → result pyval * World.

(** [command(name)(func)]: stores [func] in the registry under the
    normalised name and returns [func]. *)
Definition command (name : str) (func : handler)
    (COMMAND_REGISTRY : gmap str handler) : handler * gmap str handler :=
  let key := normalize_command_name name in
  (func, <[key := func]> COMMAND_REGISTRY).

(** The registry after a registration (the specification's [register]). *)
Definition register (name : str) (func : handler)
    (COMMAND_REGISTRY : gmap str handler) : gmap str handler :=
  (command name func COMMAND_REGISTRY).2.

(** *** Parser *)

Definition parse_command (body_text : str) : result (option Command) :=
  if py_not body_text then Ok None else
  let stripped := str_strip body_text in
  if py_not stripped then Ok None else
  line0 ← index0 (str_splitlines stripped);
  let first_line := str_strip line0 in
  if py_not first_line then Ok None else
  let parts := str_split first_line in
  if py_not parts then Ok None else
  raw_name ← index0 parts;
  let args := drop 1 parts in
  let normalized_name := normalize_command_name raw_name in
  if py_not normalized_name then Ok None else
  Ok (Some (mk_Command normalized_name args body_text)).

(** What the parser makes of the tokens of the command line. *)
Definition command_of_parts (body_text : str) (parts : list str) : option Command :=
  match parts with
  | [] => None
  | raw_name :: args =>
      let normalized_name := normalize_command_name raw_name in
      if py_not normalized_name then None
      else Some (mk_Command normalized_name args body_text)
  end.

(** *** Dispatcher *)

(** The dispatcher runs in a state made of the records the logger has
    received and the world the handlers act on; a computation returns
    or raises, and leaves a state either way. *)
Record state := mk_state {
  logged : list log_record;
  world : World;
}.

Definition M (A : Type) : Type := state → result A * state.

#[export] Instance M_ret : MRet M := λ A a st, (Ok a, st).
#[export] Instance M_bind : MBind M := λ A B k m st,
  match m st with
  | (Ok a, st') => k a st'
  | (Raise e, st') => (Raise e, st')
  end.

Definition logger_call (lvl : level) (fmt : str) (fields : list pyval) : M unit :=
  λ st, (Ok tt, mk_state (logged st ++ [mk_log lvl fmt fields]) (world st)).

Definition logger_info := logger_call INFO.
Definition logger_warning := logger_call WARNING.
Definition logger_error := logger_call ERROR.

(** A call that unpacks [args]: its elements are the positional
    arguments [func] receives. *)
Definition call (func : handler) (args : list pyval) : M pyval :=
  λ st, let '(r, w) := func args (world st) in (r, mk_state (logged st) w).

(** [try: body except Exception as e: except_ e]: an exception whose
    class does not derive from [Exception] is not caught. *)
Definition try_except_Exception {A} (body : M A) (except_ : exn → M A) : M A :=
  λ st,
    match body st with
    | (Ok a, st') => (Ok a, st')
    | (Raise e, st') =>
        if exn_is_Exception e then except_ e st' else (Raise e, st')
    end.

Context {PR : PyRepr World}.

(** [repr(e)] where the dispatcher is running. *)
Definition call_repr (e : exn) : M str :=
  λ st, let '(r, w) := py_repr e (world st) in (r, mk_state (logged st) w).

Definition handle_command (COMMAND_REGISTRY : gmap str handler)
    (cmd : Command) (meta : pyval) : M pyval :=
  logger_info (U "COMMAND_HANDLE_START name=%s args=%s meta=%s")
    [VStr (name cmd); VList (VStr <$> args cmd); meta];;
  match COMMAND_REGISTRY !! name cmd with
  | None =>
      logger_warning (U "COMMAND_HANDLER_NOT_FOUND name=%s") [VStr (name cmd)];;
      let result := VDict [
        (U "handled", VBool false);
        (U "reason", VStr (U "handler_not_found"));
        (U "command", VStr (name cmd));
        (U "args", VList (VStr <$> args cmd));
        (U "meta", meta)] in
      logger_info (U "COMMAND_HANDLE_END result=%s") [result];;
      mret result
  | Some handler =>
      result ← try_except_Exception
        (handler_result ← call handler (VStr <$> args cmd);
         mret (VDict [
           (U "handled", VBool true);
           (U "command", VStr (name cmd));
           (U "args", VList (VStr <$> args cmd));
           (U "meta", meta);
           (U "handler_result", handler_result)]))
        (λ e,
         logged_error ← call_repr e;
         logger_error (U "COMMAND_HANDLER_ERROR name=%s error=%s")
           [VStr (name cmd); VStr logged_error];;
         error ← call_repr e;
         mret (VDict [
           (U "handled", VBool false);
           (U "reason", VStr (U "handler_exception"));
           (U "command", VStr (name cmd));
           (U "args", VList (VStr <$> args cmd));
           (U "meta", meta);
           (U "error", VStr error)]));
      logger_info (U "COMMAND_HANDLE_END result=%s") [result];;
      mret result
  end.

(** *** The registrations of the module *)

(** The three decorated functions of the module, in source order; their
    bodies send mail, query a host and run a process, which is the
    world's business. *)
Definition module_registry (check_campus_ip self_health device_health : handler)
    : gmap str handler :=
  let reg := (command (U "check_campus_ip") check_campus_ip ∅).2 in
  let reg := (command (U "/health") self_health reg).2 in
  (command (U "/device_health") device_health reg).2.

End CommandProcessor.

Arguments handler : clear implicits.
Arguments state : clear implicits.

(** ** Sample exceptions and handlers *)

Definition SystemExit : exn := mk_exn (U "SystemExit") [] false.
Definition ValueError (msg : str) : exn := mk_exn (U "ValueError") [msg] true.

(** A variadic handler that returns the tuple of its arguments. *)
Definition echo_handler : handler unit := λ args w, (Ok (VTuple args), w).

(** A variadic handler that raises [ValueError('boom')]. *)
Definition failing_handler : handler unit :=
  λ args w, (Raise (ValueError (U "'boom'")), w).


(** An interpreter in which the [__repr__] of the exceptions raises,
    and one in which it returns the empty string. *)
Definition raising_repr {World : Type} : PyRepr World :=
  λ e w, (Raise (mk_exn (U "RuntimeError") [U "'no repr'"] true), w).

Definition empty_repr {World : Type} : PyRepr World := λ e w, (Ok [], w).

(** The case mapping that lowers the ASCII capitals and leaves every
    other code point alone. *)
Definition ascii_case : CaseMapping.
Proof.
  refine {| str_lower := map ascii_lower |}.
  - reflexivity.
  - intros s. rewrite map_map. apply map_ext. intros c.
    unfold ascii_lower.
    destruct ((65 <=? c) && (c <=? 90)) eqn:E; [|by rewrite E].
    apply andb_true_iff in E as [H1 H2]. apply N.leb_le in H1, H2.
    destruct ((65 <=? c + 32) && (c + 32 <=? 90)) eqn:E'; [|done].
    apply andb_true_iff in E' as [_ H3]. apply N.leb_le in H3. lia.
  - intros [|c s]; [done|discriminate].
  - intros [|c s]; [done|]. simpl. intros [= H]. f_equal.
    revert H. unfold ascii_lower, marker.
    destruct ((65 <=? c) && (c <=? 90)) eqn:E; [|done].
    apply andb_true_iff in E as [H1 H2]. apply N.leb_le in H1, H2. lia.
Defined.

(** * The mail service, the gateway and the handlers

    [mail_service.py], [mail_gateway.py] and the three handlers of
    [command_processor.py] talk to an SMTP server, an IMAP server, an
    HTTP endpoint, a child process and the clock, through [smtplib],
    [imaplib], [email], [requests], [subprocess] and [time].  Those
    libraries are an interface ([Platform]); every call that reaches
    the outside is recorded as an [io_event], in order, so that what
    the code does and does not do can be read off the record. *)

(** ** Python values and computations with effects *)

(** [bool(v)]. *)
Definition py_truthy (v : pyval) : bool :=
  match v with
  | VNone => false
  | VBool b => b
  | VInt z => negb (z =? 0)%Z
  | VStr s => negb (py_not s)
  | VList xs => negb (py_not xs)
  | VTuple xs => negb (py_not xs)
  | VDict items => negb (py_not items)
  end.

(** [type(v).__name__]. *)
Definition py_type_name (v : pyval) : str :=
  match v with
  | VNone => U "NoneType"
  | VBool _ => U "bool"
  | VInt _ => U "int"
  | VStr _ => U "str"
  | VList _ => U "list"
  | VTuple _ => U "tuple"
  | VDict _ => U "dict"
  end.

(** The exception of an attribute lookup that fails; its message holds
    single quotes, so that its [repr] is written in double quotes. *)
Definition AttributeError (type_name attr : str) : exn :=
  mk_exn (U "AttributeError")
    [[34] ++ U "'" ++ type_name ++ U "' object has no attribute '" ++ attr
       ++ U "'" ++ [34]]
    true.

(** [v.get(k, default)]: a dictionary answers, any other value has no
    such method. *)
Definition py_get (v : pyval) (k : str) (default : pyval) : result pyval :=
  match v with
  | VDict items =>
      Ok (match assoc k items with Some x => x | None => default end)
  | _ => Raise (AttributeError (py_type_name v) (U "get"))
  end.

(** [needle in hay] on strings. *)
Fixpoint is_prefix (p s : str) : bool :=
  match p, s with
  | [], _ => true
  | _ :: _, [] => false
  | a :: p', b :: s' => (a =? b) && is_prefix p' s'
  end.

Fixpoint contains (needle hay : str) : bool :=
  is_prefix needle hay
  || match hay with
     | [] => false
     | _ :: hay' => contains needle hay'
     end.

Definition ascii_upper (c : N) : N :=
  if (97 <=? c) && (c <=? 122) then c - 32 else c.

(** A computation that reads and changes a state of type [S], and
    returns or raises. *)
Definition Eff (S A : Type) : Type := S → result A * S.

#[export] Instance Eff_ret {S} : MRet (Eff S) := λ A a s, (Ok a, s).
#[export] Instance Eff_bind {S} : MBind (Eff S) := λ A B k m s,
  match m s with
  | (Ok a, s') => k a s'
  | (Raise e, s') => (Raise e, s')
  end.

(** A library call that touches no state. *)
Definition pure_call {S A} (r : result A) : Eff S A := λ s, (r, s).

Definition reads {S A} (f : S → A) : Eff S A := λ s, (Ok (f s), s).

(** [try: body except Exception as e: except_ e]. *)
Definition try_except {S A} (body : Eff S A) (except_ : exn → Eff S A) : Eff S A :=
  λ s,
    match body s with
    | (Ok a, s') => (Ok a, s')
    | (Raise e, s') =>
        if exn_is_Exception e then except_ e s' else (Raise e, s')
    end.

(** [try: body finally: final]: [final] runs however [body] ends; an
    exception of [final] replaces the outcome of [body]. *)
Definition try_finally {S A} (body : Eff S A) (final : Eff S unit) : Eff S A :=
  λ s,
    match body s with
    | (r, s') =>
        match final s' with
        | (Ok _, s'') => (r, s'')
        | (Raise e, s'') => (Raise e, s'')
        end
    end.

(** ** Messages, responses and events *)

Definition bytes := list N.

(** A parsed message as [email.message.Message] presents it to the
    code: the headers it asks for, [get_content_type()],
    [get_content_charset()], and the payload, which is a list of parts
    for a multipart message and otherwise what
    [get_payload(decode=True)] returns. *)
#[warnings="-register-all"]
Inductive message : Type := mk_message {
  msg_subject : option str;
  msg_from : option str;
  msg_message_id : option str;
  msg_content_type : str;
  msg_content_disposition : option str;
  msg_content_charset : option str;
  msg_payload : option bytes + list message;
}.

(** A message under construction: [MIMEMultipart(subtype)] with its
    [From], [To] and [Subject] headers and the parts attached so far. *)
Record mime_message (HeaderT PartT : Type) := mk_mime {
  mime_subtype : str;
  mime_from : str;
  mime_to : str;
  mime_subject : HeaderT;
  mime_parts : list PartT;
}.
Arguments mk_mime {HeaderT PartT}.

(** The response of [requests.get] with the outcome of its methods. *)
Record response := mk_response {
  status_code : Z;
  raise_for_status : result unit;
  resp_json : result pyval;
}.

(** What [subprocess.run] returns. *)
Record completed := mk_completed {
  returncode : Z;
  stdout : str;
  stderr : str;
}.

(** The calls that reach the outside, with their arguments. *)
Inductive io_event :=
| EvSMTP (host : str) (port timeout : N)
| EvEhlo
| EvStartTLS
| EvLogin (user password : str)
| EvSendmail (from_addr : str) (to_addrs : list str) (text : str)
| EvQuit
| EvSleep (seconds : N)
| EvHttpGet (url : str) (headers : list (str * str)) (timeout : N)
| EvRun (argv : list str)
| EvFetch (num : bytes) (parts : str)
| EvStore (num : bytes) (command flags : str).

(** The libraries.  [Net] is the state of everything outside the
    process.  A call returns or raises and leaves the outside in a new
    state; the constructors of the [email] package touch nothing but
    may raise.  Three facts about the interpreter are part of the
    interface: [str.upper] on ASCII strings, that decoding raises
    exceptions of class [Exception] only, and that decoding as UTF-8
    while ignoring errors always succeeds. *)
Class Platform := {
  Net : Type;
  str_upper : str → str;
  upper_ascii s : forallb is_ascii s = true → str_upper s = map ascii_upper s;
  str_exn : exn → str;
  json_dumps : pyval → result str;
  bytes_decode : str → bytes → result str;
  bytes_decode_Exception charset b e :
    bytes_decode charset b = Raise e → exn_is_Exception e = true;
  bytes_decode_utf8 b : ∃ s, bytes_decode (U "utf-8") b = Ok s;
  message_from_bytes : bytes → message;
  decode_header_str : str → result str;
  HeaderT : Type;
  PartT : Type;
  formataddr : str → str → result str;
  Header : str → str → result HeaderT;
  MIMEText : str → str → str → result PartT;
  as_string : mime_message HeaderT PartT → result str;
  smtp_connect : str → N → N → Net → result unit * Net;
  smtp_ehlo : Net → result unit * Net;
  smtp_has_extn : str → Net → bool;
  smtp_starttls : Net → result unit * Net;
  smtp_login : str → str → Net → result unit * Net;
  smtp_sendmail : str → list str → str → Net → result unit * Net;
  smtp_quit : Net → result unit * Net;
  time_sleep : N → Net → Net;
  now_strftime : str → str → Net → str;
  requests_get : str → list (str * str) → N → Net → result response * Net;
  subprocess_run : list str → Net → result completed * Net;
  FetchData : Type;
  imap_fetch : bytes → str → Net → result (str * FetchData) * Net;
  fetch_rfc822 : FetchData → result bytes;
  imap_store : bytes → str → str → Net → result unit * Net;
}.

(** The settings read from the environment file. *)
Record Config := mk_Config {
  EMAIL_FROM : str;
  EMAIL_PASSWORD : str;
  API_KEY : str;
}.

Definition RuntimeError (msg : str) : exn := mk_exn (U "RuntimeError") [msg] true.

(** The top of both modules: [os.getenv] for the three settings, and a
    [RuntimeError] unless each of them is set and not empty.  The
    message names the path of the environment file. *)
Definition load_config (getenv : str → option str) (message : str) : result Config :=
  let EMAIL_FROM := getenv (U "EMAIL_FROM") in
  let EMAIL_PASSWORD := getenv (U "EMAIL_PASSWORD") in
  let API_KEY := getenv (U "API_KEY") in
  match EMAIL_FROM, EMAIL_PASSWORD, API_KEY with
  | Some f, Some p, Some k =>
      if py_not f || py_not p || py_not k then Raise (RuntimeError message)
      else Ok (mk_Config f p k)
  | _, _, _ => Raise (RuntimeError message)
  end.

Definition SMTP_HOST : str := U "smtp.qq.com".
Definition SMTP_PORT : N := 587.
Definition SEND_INTERVAL_SECONDS : N := 1.

Section MailService.
Context {CM : CaseMapping} {P : Platform}.
Variable cfg : Config.

(** ** The world of the handlers *)

(** What the handlers and the mail service act on: the calls made so
    far, the records of [send_logger], and the outside. *)
Record MailWorld := mk_world {
  events : list io_event;
  send_logged : list log_record;
  net : Net;
}.

(** A call of a library function that reaches the outside. *)
Definition io {A} (ev : io_event) (op : Net → result A * Net) : Eff MailWorld A :=
  λ w, let '(r, n) := op (net w) in
       (r, mk_world (events w ++ [ev]) (send_logged w) n).

Definition send_logger_call (lvl : level) (fmt : str) (fields : list pyval)
    : Eff MailWorld unit :=
  λ w, (Ok tt,
        mk_world (events w) (send_logged w ++ [mk_log lvl fmt fields]) (net w)).

(** [time.sleep(seconds)]. *)
Definition sleep (seconds : N) : Eff MailWorld unit :=
  io (EvSleep seconds) (λ n, (Ok tt, time_sleep seconds n)).

(** [datetime.now(tz).strftime(fmt)] in the time zone of the module. *)
Definition now_ts : Eff MailWorld str :=
  reads (λ w, now_strftime (U "Asia/Shanghai") (U "%Y-%m-%d %H:%M:%S") (net w)).

(** ** [mail_service.send_email_to_recipients] *)

(** The loop over [enumerate(recipients)]: [len] is [len(recipients)]
    of the whole list, [idx] the index of the head of [recipients], and
    [results] the list built so far. *)
Fixpoint send_loop (subject text_content : str) (html_content : option str)
    (from_name : str) (len idx : nat) (recipients : list str)
    (results : list pyval) : Eff MailWorld (list pyval) :=
  match recipients with
  | [] => mret results
  | to_addr :: recipients' =>
      from_header ← pure_call (formataddr from_name (EMAIL_FROM cfg));
      subject_header ← pure_call (Header subject (U "utf-8"));
      text_parts ←
        (if py_not text_content then (mret [] : Eff MailWorld (list PartT))
         else
           text_part ← pure_call (MIMEText text_content (U "plain") (U "utf-8"));
           mret [text_part]);
      html_parts ←
        match html_content with
        | Some html =>
            if py_not html then (mret [] : Eff MailWorld (list PartT))
            else
              html_part ← pure_call (MIMEText html (U "html") (U "utf-8"));
              mret [html_part]
        | None => mret []
        end;
      let msg :=
        mk_mime (U "alternative") from_header to_addr subject_header
          (text_parts ++ html_parts) in
      outcome ←
        try_except
          (text ← pure_call (as_string msg);
           io (EvSendmail (EMAIL_FROM cfg) [to_addr] text)
             (smtp_sendmail (EMAIL_FROM cfg) [to_addr] text);;
           send_logger_call INFO (U "SUCCESS to=%s subject=%s")
             [VStr to_addr; VStr subject];;
           mret (true, []))
          (λ e,
           let err_msg := repr_exn e in
           send_logger_call ERROR (U "FAIL to=%s subject=%s error=%s")
             [VStr to_addr; VStr subject; VStr err_msg];;
           mret (false, err_msg));
      let results :=
        results ++ [VDict [
          (U "to", VStr to_addr);
          (U "success", VBool outcome.1);
          (U "error", VStr outcome.2)]] in
      (if negb (Z.of_nat idx =? Z.of_nat len - 1)%Z
       then sleep SEND_INTERVAL_SECONDS else mret tt);;
      send_loop subject text_content html_content from_name len (S idx)
        recipients' results
  end.

Definition send_email_to_recipients (subject text_content : str)
    (html_content : option str) (from_name : str) (recipients : list str)
    : Eff MailWorld (list pyval) :=
  io (EvSMTP SMTP_HOST SMTP_PORT 30) (smtp_connect SMTP_HOST SMTP_PORT 30);;
  try_finally
    (io EvEhlo smtp_ehlo;;
     has_starttls ← reads (λ w, smtp_has_extn (U "STARTTLS") (net w));
     (if has_starttls : bool
      then io EvStartTLS smtp_starttls;; io EvEhlo smtp_ehlo
      else mret tt);;
     io (EvLogin (EMAIL_FROM cfg) (EMAIL_PASSWORD cfg))
       (smtp_login (EMAIL_FROM cfg) (EMAIL_PASSWORD cfg));;
     send_loop subject text_content html_content from_name
       (length recipients) 0 recipients [])
    (try_except (io EvQuit smtp_quit) (λ _, mret tt)).

(** *** Calls with values of any type *)

(** The handlers and the gateway pass on what a JSON document holds.
    On values of the annotated types the call is the function above;
    what the interpreter and the libraries make of any other value is
    left open. *)
Variable ill_typed_send : pyval → pyval → pyval → pyval → pyval → Eff MailWorld pyval.

Definition as_str (v : pyval) : option str :=
  match v with VStr s => Some s | _ => None end.

Definition as_optional_str (v : pyval) : option (option str) :=
  match v with
  | VNone => Some None
  | VStr s => Some (Some s)
  | _ => None
  end.

Fixpoint as_str_list_items (xs : list pyval) : option (list str) :=
  match xs with
  | [] => Some []
  | VStr s :: xs' =>
      match as_str_list_items xs' with
      | Some ss => Some (s :: ss)
      | None => None
      end
  | _ :: _ => None
  end.

Definition as_str_list (v : pyval) : option (list str) :=
  match v with VList xs => as_str_list_items xs | _ => None end.

Definition send_email_to_recipients_py
    (subject text_content html_content from_name recipients : pyval)
    : Eff MailWorld pyval :=
  match as_str subject, as_str text_content, as_optional_str html_content,
        as_str from_name, as_str_list recipients with
  | Some s, Some t, Some h, Some f, Some rs =>
      results ← send_email_to_recipients s t h f rs;
      mret (VList results)
  | _, _, _, _, _ =>
      ill_typed_send subject text_content html_content from_name recipients
  end.

(** ** The handlers of [command_processor.py] *)

(** Each handler starts by importing from [mail_gateway]; that module
    is taken to be loaded, with [cfg] the settings it read, so that
    the import only binds names. *)

Definition self_health (args : list pyval) : Eff MailWorld pyval :=
  let email_to := [U "zhangbuqiu@gmail.com"] in
  let from_name := U "Email Service" in
  ts ← now_ts;
  let subject :=
    U "Email Service - " ++ [37038; 20214; 26381; 21153; 22312; 32447; 26816; 26597] in
  let text_content :=
    U "Email Service "
    ++ [37038; 20214; 26381; 21153; 22312; 32447; 26816; 26597; 10; 10; 26102; 38388]
    ++ U ": " ++ ts ++ U " "
    ++ [10; 10; 37038; 20214; 26381; 21153; 29366; 24577] ++ U ": "
    ++ [22312; 32447; 10] in
  let html_content :=
    [10] ++ U "    <h3>Email Service "
    ++ [37038; 20214; 26381; 21153; 22312; 32447; 26816; 26597] ++ U "<h3>"
    ++ [10] ++ U "    <p><b>" ++ [26102; 38388] ++ U ": </b>" ++ ts
    ++ U "</p>" ++ [10] ++ U "    <p><b>"
    ++ [37038; 20214; 26381; 21153; 29366; 24577] ++ U ": </b>"
    ++ [22312; 32447] ++ U "</p>" ++ [10] ++ U "    " in
  results ←
    send_email_to_recipients subject text_content (Some html_content)
      from_name email_to;
  mret (VDict [(U "result", VList results)]).

Definition device_health (args : list pyval) : Eff MailWorld pyval :=
  let target_ip := U "10.66.66.2" in
  try_except
    (let argv := [U "ping"; U "-c"; U "1"; U "-W"; U "1"; target_ip] in
     result ← io (EvRun argv) (subprocess_run argv);
     let ping_ok := (returncode result =? 0)%Z in
     if ping_ok then
       let email_to := [U "zhangbuqiu@gmail.com"] in
       let from_name := U "Email Service" in
       let subject :=
         U "Email Service - "
         ++ [23487; 33293; 20027; 26426; 34394; 25311; 20869; 32593; 22312;
             32447; 26816; 26597] in
       ts ← now_ts;
       let text_content :=
         U "Email Service "
         ++ [23487; 33293; 20027; 26426; 34394; 25311; 20869; 32593; 22312;
             32447; 26816; 26597; 10; 10; 26102; 38388]
         ++ U ": " ++ ts ++ U " " ++ [10; 10; 29366; 24577] ++ U ": "
         ++ [22312; 32447; 10] in
       let html_content :=
         [10] ++ U "                <h3>Email Service "
         ++ [23487; 33293; 20027; 26426; 34394; 25311; 20869; 32593; 22312;
             32447; 26816; 26597]
         ++ U "<h3>" ++ [10] ++ U "                <p><b>" ++ [26102; 38388]
         ++ U ": </b>" ++ ts ++ U "</p>" ++ [10]
         ++ U "                <p><b>" ++ [29366; 24577] ++ U ": </b>"
         ++ [22312; 32447] ++ U "</p>" ++ [10] ++ U "                " in
       results ←
         send_email_to_recipients subject text_content (Some html_content)
           from_name email_to;
       mret (VDict [
         (U "ok", VBool true);
         (U "ping", VStr (U "success"));
         (U "mail_results", VList results)])
     else
       mret (VDict [
         (U "ok", VStr (U "False"));
         (U "ping", VStr (U "failed"));
         (U "stdout", VStr (stdout result));
         (U "stderr", VStr (stderr result))]))
    (λ e,
     mret (VDict [(U "ok", VBool false); (U "error", VStr (repr_exn e))])).

Definition check_campus_ip (args : list pyval) : Eff MailWorld pyval :=
  let url := U "http://10.66.66.2:8081/" in
  let headers := [(U "X-API-KEY", API_KEY cfg)] in
  try_except
    (resp ← io (EvHttpGet url headers 5) (requests_get url headers 5);
     pure_call (raise_for_status resp);;
     data ← pure_call (resp_json resp);
     subject ← pure_call (py_get data (U "subject")
                            (VStr [40664; 35748; 20027; 39064]));
     text_content ← pure_call (py_get data (U "text_content") (VStr []));
     html_content ← pure_call (py_get data (U "html_content") VNone);
     from_name ← pure_call (py_get data (U "from_name")
                              (VStr [31995; 32479; 36890; 30693]));
     email_to ← pure_call (py_get data (U "email_to") (VList []));
     results ←
       send_email_to_recipients_py subject text_content html_content
         from_name email_to;
     mret (VDict [
       (U "ok", VBool true);
       (U "status_code", VInt (status_code resp));
       (U "result", results)]))
    (λ e,
     mret (VDict [(U "ok", VBool false); (U "error", VStr (repr_exn e))])).

(** The registry of the module with its three handlers in place. *)
Definition loaded_registry : gmap str (handler MailWorld) :=
  module_registry check_campus_ip self_health device_health.

End MailService.

(** ** Reading a message: [mail_service.extract_text_body] *)

Definition is_multipart (m : message) : bool :=
  match msg_payload m with inr _ => true | inl _ => false end.

(** [m.get_payload(decode=True)]: [None] for a multipart message. *)
Definition get_payload_decode (m : message) : option bytes :=
  match msg_payload m with inl b => b | inr _ => None end.

(** [m.walk()]: the message, then the messages its parts walk through,
    in order. *)
Fixpoint walk (m : message) : list message :=
  m :: match m with
       | mk_message _ _ _ _ _ _ (inr parts) => flat_map walk parts
       | mk_message _ _ _ _ _ _ (inl _) => []
       end.

Section MailReader.
Context {P : Platform}.

(** [part.get_content_charset() or "utf-8"]. *)
Definition charset_of (part : message) : str :=
  match msg_content_charset part with
  | Some c => if py_not c then U "utf-8" else c
  | None => U "utf-8"
  end.

(** [part.get_payload(decode=True).decode(charset, errors="ignore")]. *)
Definition part_text (part : message) : result str :=
  match get_payload_decode part with
  | Some b => bytes_decode (charset_of part) b
  | None => Raise (AttributeError (U "NoneType") (U "decode"))
  end.

(** One of the two loops over [msg.walk()]: the text of the first
    selected part that decodes; a part whose decoding raises an
    [Exception] is passed over. *)
Fixpoint find_text (select : message → bool) (parts : list message)
    : result (option str) :=
  match parts with
  | [] => Ok None
  | part :: parts' =>
      if select part then
        match part_text part with
        | Ok s => Ok (Some s)
        | Raise e =>
            if exn_is_Exception e then find_text select parts' else Raise e
        end
      else find_text select parts'
  end.

Definition is_plain_text (part : message) : bool :=
  let ctype := msg_content_type part in
  let disp := default [] (msg_content_disposition part) in
  bool_decide (ctype = U "text/plain") && negb (contains (U "attachment") disp).

Definition is_html (part : message) : bool :=
  bool_decide (msg_content_type part = U "text/html").

Definition extract_text_body (msg : message) : result str :=
  if is_multipart msg then
    plain ← find_text is_plain_text (walk msg);
    match plain with
    | Some s => Ok s
    | None =>
        html ← find_text is_html (walk msg);
        match html with
        | Some s => Ok s
        | None => Ok []
        end
    end
  else
    let charset := charset_of msg in
    match get_payload_decode msg with
    | Some (c :: payload) =>
        match bytes_decode charset (c :: payload) with
        | Ok s => Ok s
        | Raise e =>
            if exn_is_Exception e then bytes_decode (U "utf-8") (c :: payload)
            else Raise e
        end
    | _ => Ok []
    end.

(** [mail_service.decode_mime_header]. *)
Definition decode_mime_header (value : str) : result str :=
  if py_not value then Ok [] else decode_header_str value.

End MailReader.

(** ** The gateway and the IMAP reader *)

(** A request as [send_email] sees it: the lookup of a header, and the
    outcome of [get_json(force=True)]. *)
Record request := mk_request {
  req_header : str → option str;
  req_get_json : result pyval;
}.

Section Gateway.
Context {CM : CaseMapping} {P : Platform} {PR : PyRepr MailWorld}.
Variable cfg : Config.
Variable ill_typed_send : pyval → pyval → pyval → pyval → pyval → Eff MailWorld pyval.

(** A computation on the world, run where [request_logger] is at hand. *)
Definition lift_world {A} (m : Eff MailWorld A) : @M MailWorld A :=
  λ st, let '(r, w) := m (world st) in (r, mk_state (logged st) w).

Definition call_pure {A} (r : result A) : @M MailWorld A := λ st, (r, st).

(** [mail_gateway.check_api_key]. *)
Definition check_api_key (req : request) : bool :=
  let client_key := req_header req (U "X-API-KEY") in
  bool_decide (client_key = Some (API_KEY cfg)).

(** [mail_gateway.health_check]. *)
Definition health_check : pyval * Z :=
  (VDict [(U "status", VStr (U "ok"))], 200%Z).

Definition is_list (v : pyval) : bool :=
  match v with VList _ => true | _ => false end.

(** [mail_gateway.send_email]: the JSON body of the response and its
    status. *)
Definition send_email (req : request) : @M MailWorld (pyval * Z) :=
  if negb (check_api_key req) then
    mret (VDict [(U "error", VStr (U "Unauthorized"))], 401%Z)
  else
    parsed ←
      try_except_Exception
        (data ← call_pure (req_get_json req);
         mret (inl data))
        (λ e,
         mret (inr (VDict [(U "error", VStr (U "Invalid JSON: " ++ str_exn e))],
                    400%Z)));
    match parsed with
    | inr response => mret response
    | inl data =>
        subject ← call_pure (py_get data (U "subject") VNone);
        text_content ← call_pure (py_get data (U "text_content") VNone);
        html_first ← call_pure (py_get data (U "html_content") VNone);
        html_content ←
          (if py_truthy html_first then mret html_first
           else call_pure (py_get data (U "html_context") VNone));
        email_to ← call_pure (py_get data (U "email_to") VNone);
        from_name ← call_pure (py_get data (U "from_name") VNone);
        try_except_Exception
          (recipients_json ← call_pure (json_dumps email_to);
           body_json ← call_pure (json_dumps data);
           logger_info
             (U "HTTP_REQUEST from_name=%s subject=%s recipients=%s body=%s")
             [from_name; subject; VStr recipients_json; VStr body_json])
          (λ _, mret tt);;
        if negb (is_list email_to) then
          mret (VDict [(U "error", VStr (U "email_to must be a list"))], 400%Z)
        else
          sent ←
            try_except_Exception
              (results ←
                 lift_world
                   (send_email_to_recipients_py cfg ill_typed_send subject
                      text_content html_content from_name email_to);
               mret (inl results))
              (λ e,
               lift_world
                 (send_logger_call ERROR (U "GLOBAL_FAIL subject=%s error=%s")
                    [subject; VStr (repr_exn e)]);;
               mret (inr (VDict [
                 (U "error", VStr (U "Failed to send emails"));
                 (U "detail", VStr (repr_exn e))], 500%Z)));
          match sent with
          | inl results =>
              mret (VDict [(U "status", VStr (U "ok")); (U "results", results)],
                    200%Z)
          | inr response => mret response
          end
    end.

(** [mail_service.process_single_imap_message]; the registry is the
    global the dispatcher reads. *)
Definition process_single_imap_message
    (COMMAND_REGISTRY : gmap str (handler MailWorld)) (num : bytes)
    : @M MailWorld unit :=
  let mark_seen :=
    lift_world (io (EvStore num (U "+FLAGS") (U "\Seen"))
                  (imap_store num (U "+FLAGS") (U "\Seen"))) in
  fetched ← lift_world (io (EvFetch num (U "(RFC822)"))
                          (imap_fetch num (U "(RFC822)")));
  let typ := fetched.1 in
  let msg_data := fetched.2 in
  if negb (bool_decide (typ = U "OK")) then mret tt else
  raw_email ← call_pure (fetch_rfc822 msg_data);
  let msg := message_from_bytes raw_email in
  subject ← call_pure (decode_mime_header (default [] (msg_subject msg)));
  from_raw ← call_pure (decode_mime_header (default [] (msg_from msg)));
  if negb (bool_decide (str_upper (str_strip subject) = U "COMMAND")) then
    mark_seen;;
    logger_info (U "IMAP_SKIP_NON_COMMAND subject=%s from=%s")
      [VStr subject; VStr from_raw]
  else
    body_text ← call_pure (extract_text_body msg);
    cmd ← call_pure (parse_command body_text);
    match cmd with
    | None =>
        mark_seen;;
        logger_warning (U "IMAP_NO_COMMAND_PARSED subject=%s from=%s")
          [VStr subject; VStr from_raw]
    | Some cmd =>
        let meta := VDict [
          (U "subject", VStr subject);
          (U "from", VStr from_raw);
          (U "message_id", VStr (default [] (msg_message_id msg)))] in
        logger_info (U "IMAP_COMMAND_RECEIVED name=%s args=%s meta=%s")
          [VStr (name cmd); VList (VStr <$> args cmd); meta];;
        result ← handle_command COMMAND_REGISTRY cmd meta;
        result_json ← call_pure (json_dumps result);
        logger_info (U "IMAP_COMMAND_RESULT name=%s result=%s")
          [VStr (name cmd); VStr result_json];;
        mark_seen
    end.

End Gateway.

(** ** A platform to run the code on

    A small stand-in for the libraries: a server that can be reached or
    not and whose upgrade to TLS works or not, that advertises STARTTLS
    or not and refuses some recipients; a host that answers the ping or
    not; an endpoint with one response; and an inbox.  A raw message is
    its subject line followed by its body. *)

Definition ConnectionRefusedError : exn :=
  mk_exn (U "ConnectionRefusedError") [U "111"; U "'Connection refused'"] true.
Definition SMTPRecipientsRefused : exn :=
  mk_exn (U "SMTPRecipientsRefused") [U "{}"] true.
Definition SMTPException (msg : str) : exn :=
  mk_exn (U "SMTPException") [msg] true.
Definition LookupError (charset : str) : exn :=
  mk_exn (U "LookupError") [U "'unknown encoding: " ++ charset ++ U "'"] true.
Definition KeyboardInterrupt : exn := mk_exn (U "KeyboardInterrupt") [] false.

Record TestNet := mk_test_net {
  tn_starttls : bool;
  tn_rejected : list str;
  tn_ping : Z;
  tn_http : result response;
  tn_inbox : list (bytes * bytes);
  tn_clock : N;
}.

Fixpoint inbox_get (num : bytes) (inbox : list (bytes * bytes)) : option bytes :=
  match inbox with
  | [] => None
  | (n, raw) :: inbox' =>
      if bool_decide (n = num) then Some raw else inbox_get num inbox'
  end.

Definition test_message (raw : bytes) : message :=
  mk_message (Some (until_linebreak raw)) (Some (U "someone@example.com"))
    (Some (U "<1@example.com>")) (U "text/plain") None None
    (inl (Some (drop (S (length (until_linebreak raw))) raw))).

Definition test_platform (smtp_up tls_works : bool) : Platform.
Proof.
  refine {|
    Net := TestNet;
    str_upper := map ascii_upper;
    str_exn := repr_exn;
    json_dumps := λ v, Ok (U "{}");
    bytes_decode := λ charset b,
      if bool_decide (charset = U "utf-8") || bool_decide (charset = U "us-ascii")
      then Ok b else Raise (LookupError charset);
    message_from_bytes := test_message;
    decode_header_str := λ s, Ok s;
    HeaderT := str;
    PartT := str * str;
    formataddr := λ n a, Ok (n ++ U " <" ++ a ++ U ">");
    Header := λ s charset, Ok s;
    MIMEText := λ text subtype charset, Ok (subtype, text);
    as_string := λ m, Ok (U "To: " ++ mime_to _ _ m);
    smtp_connect := λ host port timeout n,
      (if smtp_up then Ok tt else Raise ConnectionRefusedError, n);
    smtp_ehlo := λ n, (Ok tt, n);
    smtp_has_extn := λ ext n, tn_starttls n;
    smtp_starttls := λ n,
      (if tls_works then Ok tt
       else Raise (SMTPException (U "'STARTTLS extension not supported'")), n);
    smtp_login := λ user password n, (Ok tt, n);
    smtp_sendmail := λ from_addr to_addrs text n,
      (if existsb (λ to, bool_decide (to ∈ tn_rejected n)) to_addrs
       then Raise SMTPRecipientsRefused else Ok tt, n);
    smtp_quit := λ n, (Ok tt, n);
    time_sleep := λ seconds n,
      mk_test_net (tn_starttls n) (tn_rejected n) (tn_ping n)
        (tn_http n) (tn_inbox n) (tn_clock n + seconds);
    now_strftime := λ tz fmt n, U "2025-01-01 00:00:00";
    requests_get := λ url headers timeout n, (tn_http n, n);
    subprocess_run := λ argv n, (Ok (mk_completed (tn_ping n) [] []), n);
    FetchData := bytes;
    imap_fetch := λ num parts n,
      (match inbox_get num (tn_inbox n) with
       | Some raw => Ok (U "OK", raw)
       | None => Ok (U "NO", [])
       end, n);
    fetch_rfc822 := λ raw, Ok raw;
    imap_store := λ num command flags n, (Ok tt, n);
  |}.
  - reflexivity.
  - intros charset b e.
    destruct (bool_decide _ || bool_decide _); [discriminate|].
    by intros [= <-].
  - intros b. by eexists.
Defined.

(** The platform on which everything works but the delivery to the
    refused recipients. *)
Definition good_platform : Platform := test_platform true true.

(** No value outside the annotated types is passed in the runs below. *)
Definition no_ill_typed_send {P : Platform}
    (subject text_content html_content from_name recipients : pyval)
    : Eff MailWorld pyval :=
  pure_call (Raise (mk_exn (U "TypeError") [] true)).

Definition test_config : Config :=
  mk_Config (U "me@qq.com") (U "secret") (U "key").

Definition test_net : TestNet :=
  mk_test_net true [U "bad@example.com"] 1
    (Ok (mk_response 200 (Ok tt) (Ok (VDict []))))
    [(U "1", U "Command" ++ [10] ++ U "/HEALTH now");
     (U "2", U "hello" ++ [10] ++ U "/health")]
    0.

(** The same outside with a server that does not advertise STARTTLS. *)
Definition plain_net : TestNet :=
  mk_test_net false (tn_rejected test_net) (tn_ping test_net)
    (tn_http test_net) (tn_inbox test_net) (tn_clock test_net).

Definition test_world (smtp_up tls_works : bool) (n : TestNet)
    : MailWorld (P := test_platform smtp_up tls_works) :=
  mk_world (P := test_platform smtp_up tls_works) [] [] n.

Definition test_recipients : list str :=
  [U "a@x.org"; U "bad@example.com"; U "c@x.org"].

(** A run with three recipients, the second of which is refused. *)
Definition test_send (smtp_up tls_works : bool) (n : TestNet)
    : result (list pyval) * MailWorld (P := test_platform smtp_up tls_works) :=
  send_email_to_recipients (P := test_platform smtp_up tls_works) test_config
    (U "subject") (U "text") None (U "Me") test_recipients
    (test_world smtp_up tls_works n).

(** ** Notions used to state what the mail service does *)

(** The entry [send_email_to_recipients] adds for one recipient. *)
Definition result_entry (to_addr : str) (ok : bool) (err : str) : pyval :=
  VDict [(U "to", VStr to_addr); (U "success", VBool ok); (U "error", VStr err)].

(** An entry for [to_addr]: a success has an empty error text, a
    failure has the [repr] of an exception of class [Exception]. *)
Definition is_result_for (to_addr : str) (d : pyval) : Prop :=
  ∃ ok err,
    d = result_entry to_addr ok err
    ∧ (ok = true → err = [])
    ∧ (ok = false → ∃ e, exn_is_Exception e = true ∧ err = repr_exn e).

Definition is_sleep (ev : io_event) : bool :=
  match ev with EvSleep _ => true | _ => false end.

(** What the loop of [send_email_to_recipients] may do to the outside:
    send one message from the configured address to one of the
    recipients, and pause for the configured interval. *)
Definition is_send_event (cfg : Config) (recipients : list str) (ev : io_event)
    : Prop :=
  match ev with
  | EvSendmail from_addr to_addrs _ =>
      from_addr = EMAIL_FROM cfg
      ∧ ∃ to_addr, to_addrs = [to_addr] ∧ to_addr ∈ recipients
  | EvSleep seconds => seconds = SEND_INTERVAL_SECONDS
  | _ => False
  end.

(** What one turn of the loop does to the outside before the pause:
    nothing, when the message cannot be turned into text, or one call
    of [sendmail] from the configured address to the recipient alone. *)
Definition is_attempt (cfg : Config) (to_addr : str) (attempt : list io_event)
    : Prop :=
  attempt = []
  ∨ ∃ text, attempt = [EvSendmail (EMAIL_FROM cfg) [to_addr] text].

(** The attempts in order, with one pause of the configured interval
    after each of them but the last. *)
Fixpoint with_pauses (attempts : list (list io_event)) : list io_event :=
  match attempts with
  | [] => []
  | attempt :: rest =>
      attempt
      ++ match rest with
         | [] => []
         | _ :: _ => EvSleep SEND_INTERVAL_SECONDS :: with_pauses rest
         end
  end.

(** The calls that open a session, in order: with or without the
    upgrade to TLS. *)
Definition handshake (cfg : Config) (tls : bool) : list io_event :=
  if tls
  then [EvEhlo; EvStartTLS; EvEhlo; EvLogin (EMAIL_FROM cfg) (EMAIL_PASSWORD cfg)]
  else [EvEhlo; EvLogin (EMAIL_FROM cfg) (EMAIL_PASSWORD cfg)].

(** A platform on which nothing fails but deliveries: the connection,
    the handshake and the login succeed, the [email] package builds
    every message, and turning a message into text, handing it to the
    server and closing the session raise exceptions of class
    [Exception] only. *)
Definition only_deliveries_fail {P : Platform} (cfg : Config) : Prop :=
  (∀ n, (smtp_connect SMTP_HOST SMTP_PORT 30 n).1 = Ok tt)
  ∧ (∀ n, (smtp_ehlo n).1 = Ok tt)
  ∧ (∀ n, (smtp_starttls n).1 = Ok tt)
  ∧ (∀ n, (smtp_login (EMAIL_FROM cfg) (EMAIL_PASSWORD cfg) n).1 = Ok tt)
  ∧ (∀ n e, (smtp_quit n).1 = Raise e → exn_is_Exception e = true)
  ∧ (∀ to_addr text n e,
       (smtp_sendmail (EMAIL_FROM cfg) [to_addr] text n).1 = Raise e →
       exn_is_Exception e = true)
  ∧ (∀ name addr, ∃ x, formataddr name addr = Ok x)
  ∧ (∀ text charset, ∃ x, Header text charset = Ok x)
  ∧ (∀ text subtype charset, ∃ x, MIMEText text subtype charset = Ok x)
  ∧ (∀ m e, as_string m = Raise e → exn_is_Exception e = true).

(** ** Notions used to state what the reader of the inbox does *)

(** Fetching message [num] from the outside [n] succeeds and leaves
    [n']; the message parses as [msg], and its [Subject] and [From]
    headers decode to [subject] and [from_raw]. *)
Definition fetches {P : Platform} (num : bytes) (n n' : Net) (msg : message)
    (subject from_raw : str) : Prop :=
  ∃ data raw,
    imap_fetch num (U "(RFC822)") n = (Ok (U "OK", data), n')
    ∧ fetch_rfc822 data = Ok raw
    ∧ msg = message_from_bytes raw
    ∧ decode_mime_header (default [] (msg_subject msg)) = Ok subject
    ∧ decode_mime_header (default [] (msg_from msg)) = Ok from_raw.

(** The state once the message has been fetched. *)
Definition fetched {P : Platform} (num : bytes) (st : state MailWorld) (n' : Net)
    : state MailWorld :=
  mk_state (logged st)
    (mk_world (events (world st) ++ [EvFetch num (U "(RFC822)")])
       (send_logged (world st)) n').

(** The state once the message has been marked as seen. *)
Definition marked_seen {P : Platform} (num : bytes) (st : state MailWorld)
    (n' : Net) : state MailWorld :=
  mk_state (logged st)
    (mk_world (events (world st) ++ [EvStore num (U "+FLAGS") (U "\Seen")])
       (send_logged (world st)) n').

(** The [meta] dictionary the reader passes to the dispatcher. *)
Definition imap_meta (msg : message) (subject from_raw : str) : pyval :=
  VDict [
    (U "subject", VStr subject);
    (U "from", VStr from_raw);
    (U "message_id", VStr (default [] (msg_message_id msg)))].

(** ** Requests, messages and registries to run the code on *)

Definition test_state (smtp_up tls_works : bool) (n : TestNet)
    : state (MailWorld (P := test_platform smtp_up tls_works)) :=
  mk_state [] (test_world smtp_up tls_works n).

(** The registry of the module on the stand-in platform. *)
Definition test_registry (smtp_up tls_works : bool)
    : gmap str (handler (MailWorld (P := test_platform smtp_up tls_works))) :=
  loaded_registry (CM := ascii_case) (P := test_platform smtp_up tls_works)
    test_config no_ill_typed_send.

(** A handler that is interrupted from the keyboard. *)
Definition interrupted_handler {P : Platform} : handler MailWorld :=
  λ args w, (Raise KeyboardInterrupt, w).

(** A request with the given key, if any, and the given outcome of
    [get_json]. *)
Definition test_request (key : option str) (body : result pyval) : request :=
  mk_request (λ h, if bool_decide (h = U "X-API-KEY") then key else None) body.

Definition test_getenv (k : str) : option str :=
  if bool_decide (k = U "EMAIL_FROM") then Some (U "me@qq.com")
  else if bool_decide (k = U "EMAIL_PASSWORD") then Some (U "secret")
  else if bool_decide (k = U "API_KEY") then Some (U "key")
  else None.

(** A body with one recipient and its HTML under [html_context]. *)
Definition test_body : list (str * pyval) :=
  [(U "subject", VStr (U "subject"));
   (U "text_content", VStr (U "text"));
   (U "html_context", VStr (U "<p>text</p>"));
   (U "email_to", VList [VStr (U "a@x.org")]);
   (U "from_name", VStr (U "Me"))].

Definition test_part (ctype : str) (charset : option str) (payload : bytes)
    : message :=
  mk_message None None None ctype None charset (inl (Some payload)).

Definition test_multipart (parts : list message) : message :=
  mk_message (Some (U "Command")) (Some (U "someone@example.com")) None
    (U "multipart/alternative") None None (inr parts).

(** An HTML part and a plain part in an unknown charset before the
    plain part that can be read. *)
Definition html_first_parts : list message :=
  [test_part (U "text/html") None (U "<p>/health</p>");
   test_part (U "text/plain") (Some (U "x-unknown")) (U "/device_health")].

Definition readable_part : message :=
  test_part (U "text/plain") (Some (U "utf-8")) (U "/health").

Definition html_part : message :=
  test_part (U "text/html") None (U "<p>/health</p>").

(** The only plain part of the message cannot be read. *)
Definition unreadable_parts : list message :=
  [test_part (U "text/plain") (Some (U "x-unknown")) (U "/device_health")].

(** * Facts about the string built-ins *)

(** The built-ins on some strings, with the values the interpreter
    gives: a carriage return and line feed pair, an empty line and a
    final boundary; the unit separator, which is whitespace and no
    line boundary; the file separator and the line separator, which are
    both; the next-line and no-break-space code points. *)
Example builtins_crlf :
  let s := [97; 13; 10; 98; 10; 10; 99; 10] in
  str_strip s = [97; 13; 10; 98; 10; 10; 99]
  ∧ str_splitlines s = [[97]; [98]; []; [99]]
  ∧ str_split s = [[97]; [98]; [99]].
Proof. by vm_compute. Qed.

Example builtins_unit_separator :
  let s := [31; 32; 47; 120; 11; 32; 121; 32; 12288] in
  str_strip s = [47; 120; 11; 32; 121]
  ∧ str_splitlines s = [[31; 32; 47; 120]; [32; 121; 32; 12288]]
  ∧ str_split s = [[47; 120]; [121]].
Proof. by vm_compute. Qed.

Example builtins_separators :
  let s := [111; 110; 101; 28; 116; 119; 111; 13; 13; 116; 104; 114; 101; 101; 8232] in
  str_strip s = [111; 110; 101; 28; 116; 119; 111; 13; 13; 116; 104; 114; 101; 101]
  ∧ str_splitlines s = [[111; 110; 101]; [116; 119; 111]; []; [116; 104; 114; 101; 101]]
  ∧ str_split s = [[111; 110; 101]; [116; 119; 111]; [116; 104; 114; 101; 101]].
Proof. by vm_compute. Qed.

Example builtins_latin1_blank :
  let s := [32; 133; 160] in
  str_strip s = [] ∧ str_splitlines s = [[32]; [160]] ∧ str_split s = [].
Proof. by vm_compute. Qed.

Example builtins_lstrip_marker :
  str_lstrip_chars [marker] (U "///a/b") = U "a/b"
  ∧ normalize_command_name (CM := ascii_case) (U " /X ") = U "x"
  ∧ repr_exn (ValueError (U "'boom'")) = U "ValueError('boom')"
  ∧ repr_exn SystemExit = U "SystemExit()".
Proof. by vm_compute. Qed.

Section DropWhile.
Variable p : N → bool.

Lemma drop_while_all s : forallb p s = true → drop_while p s = [].
Proof.
  induction s as [|c s IH]; simpl; [done|].
  destruct (p c); simpl; [exact IH|discriminate].
Qed.

Lemma drop_while_app_all ws s :
  forallb p ws = true → drop_while p (ws ++ s) = drop_while p s.
Proof.
  induction ws as [|c ws IH]; simpl; [done|].
  destruct (p c); simpl; [exact IH|discriminate].
Qed.

Lemma drop_while_head s c r : drop_while p s = c :: r → p c = false.
Proof.
  induction s as [|c' s IH]; simpl; [discriminate|].
  destruct (p c') eqn:E; [exact IH|]. by intros [= <- _].
Qed.

Lemma drop_while_keep c s : p c = false → drop_while p (c :: s) = c :: s.
Proof. intros E. simpl. by rewrite E. Qed.

Lemma drop_while_split s :
  ∃ ws, s = ws ++ drop_while p s ∧ forallb p ws = true.
Proof.
  induction s as [|c s (ws & IH & Hws)]; simpl.
  - by exists [].
  - destruct (p c) eqn:E.
    + exists (c :: ws). simpl. rewrite E, Hws. split; [by f_equal|done].
    + by exists [].
Qed.

Lemma drop_while_forallb (q : N → bool) s :
  forallb q s = true → forallb q (drop_while p s) = true.
Proof.
  induction s as [|c s IH]; simpl; [done|].
  intros [Hc Hs]%andb_true_iff.
  destruct (p c); [by apply IH|]. simpl. by rewrite Hc, Hs.
Qed.

End DropWhile.

Lemma forallb_rev' (q : N → bool) s : forallb q (rev s) = forallb q s.
Proof.
  induction s as [|c s IH]; simpl; [done|].
  rewrite forallb_app, IH. simpl. rewrite andb_true_r. apply andb_comm.
Qed.

Lemma rstrip_split s : ∃ ws, s = str_rstrip s ++ ws ∧ blank ws = true.
Proof.
  unfold str_rstrip, blank.
  destruct (drop_while_split isspace (rev s)) as (ws & E & Hws).
  exists (rev ws). rewrite forallb_rev'. split; [|done].
  rewrite <- rev_app_distr, <- E. by rewrite rev_involutive.
Qed.

Lemma rstrip_last s r c : str_rstrip s = r ++ [c] → isspace c = false.
Proof.
  unfold str_rstrip. intros E.
  apply (f_equal (@rev N)) in E.
  rewrite rev_involutive, rev_app_distr in E. simpl in E.
  by apply drop_while_head in E.
Qed.

Lemma rstrip_keep s c : isspace c = false → str_rstrip (s ++ [c]) = s ++ [c].
Proof.
  intros E. unfold str_rstrip. rewrite rev_app_distr. simpl.
  rewrite E. simpl. by rewrite rev_involutive.
Qed.

Lemma rstrip_forallb (q : N → bool) s :
  forallb q s = true → forallb q (str_rstrip s) = true.
Proof.
  intros H. unfold str_rstrip. rewrite forallb_rev'.
  apply drop_while_forallb. by rewrite forallb_rev'.
Qed.

Lemma strip_blank s : blank s = true → str_strip s = [].
Proof.
  intros H. unfold str_strip, str_lstrip. by rewrite drop_while_all.
Qed.

Lemma strip_app_blank ws s :
  blank ws = true → str_strip (ws ++ s) = str_strip s.
Proof.
  intros H. unfold str_strip, str_lstrip. by rewrite drop_while_app_all.
Qed.

Lemma strip_head s c r : str_strip s = c :: r → isspace c = false.
Proof.
  unfold str_strip. intros E.
  destruct (rstrip_split (str_lstrip s)) as (ws & Hs & _).
  rewrite E in Hs. simpl in Hs.
  by apply (drop_while_head isspace s c (r ++ ws)).
Qed.

Lemma strip_last s r c : str_strip s = r ++ [c] → isspace c = false.
Proof. unfold str_strip. apply rstrip_last. Qed.

Lemma strip_forallb (q : N → bool) s :
  forallb q s = true → forallb q (str_strip s) = true.
Proof.
  intros H. unfold str_strip, str_lstrip.
  by apply rstrip_forallb, drop_while_forallb.
Qed.

(** A string that neither starts nor ends with whitespace is its own
    [strip]. *)
Lemma strip_fixed t :
  match t with [] => True | c :: _ => isspace c = false end →
  (∀ r c, t = r ++ [c] → isspace c = false) →
  str_strip t = t.
Proof.
  intros Hh Hl. unfold str_strip, str_lstrip.
  destruct t as [|c t]; [done|].
  rewrite drop_while_keep by done.
  destruct (exists_last (l := c :: t)) as (r & c' & E); [done|].
  rewrite E. apply rstrip_keep. by apply (Hl r).
Qed.

Lemma strip_idem s : str_strip (str_strip s) = str_strip s.
Proof.
  apply strip_fixed.
  - destruct (str_strip s) as [|c r] eqn:E; [done|]. by apply strip_head in E.
  - intros r c E. by apply strip_last in E.
Qed.

Lemma spaceless_app s t :
  spaceless (s ++ t) = spaceless s && spaceless t.
Proof. apply forallb_app. Qed.

Lemma strip_spaceless t : spaceless t = true → str_strip t = t.
Proof.
  intros H. apply strip_fixed.
  - destruct t as [|c t]; [done|]. simpl in H.
    apply andb_true_iff in H as [H _]. by apply negb_true_iff.
  - intros r c ->. rewrite spaceless_app in H.
    apply andb_true_iff in H as [_ H]. simpl in H.
    rewrite andb_true_r in H. by apply negb_true_iff.
Qed.

(** Every line boundary is whitespace. *)
Lemma linebreak_isspace c : is_linebreak c = true → isspace c = true.
Proof.
  unfold is_linebreak, isspace, mem. intros H.
  apply existsb_exists in H as (x & Hx & E).
  apply N.eqb_eq in E. subst x.
  simpl in Hx.
  repeat (destruct Hx as [<-|Hx]; [reflexivity|]). destruct Hx.
Qed.

Lemma spaceless_lineless s : spaceless s = true → lineless s = true.
Proof.
  unfold spaceless, lineless.
  induction s as [|c s IH]; simpl; [done|].
  intros [Hc Hs]%andb_true_iff. rewrite (IH Hs), andb_true_r.
  apply negb_true_iff. apply negb_true_iff in Hc.
  destruct (is_linebreak c) eqn:E; [|done].
  apply linebreak_isspace in E. congruence.
Qed.

Lemma until_linebreak_lineless s : lineless s = true → until_linebreak s = s.
Proof.
  unfold lineless. induction s as [|c s IH]; simpl; [done|].
  intros [Hc Hs]%andb_true_iff. apply negb_true_iff in Hc.
  rewrite Hc. f_equal. by apply IH.
Qed.

Lemma until_linebreak_app l c rest :
  lineless l = true → is_linebreak c = true →
  until_linebreak (l ++ c :: rest) = l.
Proof.
  unfold lineless. intros Hl Hc.
  induction l as [|d l IH]; simpl.
  - by rewrite Hc.
  - simpl in Hl. apply andb_true_iff in Hl as [Hd Hl].
    apply negb_true_iff in Hd. rewrite Hd. f_equal. by apply IH.
Qed.

(** The first line [splitlines] returns is the text up to the first
    boundary; there is one as soon as the string is not empty. *)
Lemma splitlines_from_first s cur :
  cur ≠ [] ∨ s ≠ [] →
  ∃ lines, splitlines_from cur s = (rev cur ++ until_linebreak s) :: lines.
Proof.
  revert cur. induction s as [|c s IH]; intros cur H; simpl.
  - destruct H as [H|H]; [|done].
    destruct cur; [done|]. simpl. rewrite app_nil_r. by eexists.
  - destruct (is_linebreak c).
    + rewrite app_nil_r. by eexists.
    + destruct (IH (c :: cur)) as (lines & E); [by left|].
      rewrite E. simpl. rewrite <- app_assoc. simpl. by eexists.
Qed.

Lemma splitlines_first s :
  s ≠ [] → index0 (str_splitlines s) = Ok (until_linebreak s).
Proof.
  intros H. unfold str_splitlines.
  destruct (splitlines_from_first s []) as (lines & E); [by right|].
  by rewrite E.
Qed.

(** [split] on a string without whitespace. *)
Lemma split_from_spaceless t cur :
  spaceless t = true →
  split_from cur t = if py_not (rev cur ++ t) then [] else [rev cur ++ t].
Proof.
  revert cur. unfold spaceless.
  induction t as [|c t IH]; intros cur H; simpl.
  - rewrite app_nil_r. destruct cur as [|d cur]; [done|]. simpl.
    by destruct (rev cur ++ [d]) eqn:E; [destruct (rev cur); discriminate|].
  - simpl in H. apply andb_true_iff in H as [Hc Ht].
    apply negb_true_iff in Hc. rewrite Hc, (IH (c :: cur) Ht).
    simpl. by rewrite <- app_assoc.
Qed.

Lemma split_spaceless t :
  spaceless t = true → t ≠ [] → str_split t = [t].
Proof.
  intros H Hne. unfold str_split. rewrite split_from_spaceless by done.
  simpl. by destruct t.
Qed.

Lemma split_blank s : blank s = true → str_split s = [].
Proof.
  unfold str_split, blank. induction s as [|c s IH]; simpl; [done|].
  intros [Hc Hs]%andb_true_iff. rewrite Hc. by apply IH.
Qed.

(** [split] returns the tokens of the string. *)
Lemma tokens_space c s ts : isspace c = true → tokens s ts → tokens (c :: s) ts.
Proof.
  intros Hc H. destruct H as [ws Hws|ws t rest ts Hws Ht1 Ht2 Hr Hts].
  - apply tokens_nil. unfold blank in *. simpl. by rewrite Hc.
  - apply (tokens_cons (c :: ws)); try done.
    unfold blank in *. simpl. by rewrite Hc.
Qed.

Lemma split_from_tokens s cur :
  spaceless cur = true → tokens (rev cur ++ s) (split_from cur s).
Proof.
  revert cur. induction s as [|c s IH]; intros cur Hcur; simpl.
  - destruct cur as [|d cur]; simpl.
    + by apply tokens_nil.
    + change (tokens ([] ++ (rev cur ++ [d]) ++ []) [rev cur ++ [d]]).
      apply (tokens_cons [] (rev cur ++ [d]) [] []); try done.
      * by destruct (rev cur).
      * change (spaceless (rev (d :: cur)) = true).
        unfold spaceless. by rewrite forallb_rev'.
      * by apply tokens_nil.
  - destruct (isspace c) eqn:Hc.
    + assert (tokens (c :: s) (split_from [] s)) as Hrest.
      { apply tokens_space; [done|]. by apply (IH []). }
      destruct cur as [|d cur]; simpl; [done|].
      change (tokens ([] ++ (rev cur ++ [d]) ++ c :: s)
                (((rev cur ++ [d]) :: split_from [] s))).
      apply (tokens_cons [] (rev cur ++ [d]) (c :: s)); try done.
      * by destruct (rev cur).
      * change (spaceless (rev (d :: cur)) = true).
        unfold spaceless. by rewrite forallb_rev'.
    + specialize (IH (c :: cur)). simpl in IH.
      rewrite <- app_assoc in IH. simpl in IH. apply IH.
      unfold spaceless in *. simpl. by rewrite Hc, Hcur.
Qed.

Lemma split_tokens s : tokens s (str_split s).
Proof. by apply (split_from_tokens s []). Qed.

Lemma tokens_Forall s ts :
  tokens s ts → Forall (λ t, t ≠ [] ∧ spaceless t = true) ts.
Proof. induction 1; constructor; auto. Qed.

Lemma split_from_nonempty s cur : cur ≠ [] → split_from cur s ≠ [].
Proof.
  revert cur. induction s as [|c s IH]; intros cur H; simpl.
  - by destruct cur.
  - destruct (isspace c); [by destruct cur|]. by apply IH.
Qed.

Lemma until_linebreak_forallb (q : N → bool) s :
  forallb q s = true → forallb q (until_linebreak s) = true.
Proof.
  induction s as [|c s IH]; simpl; [done|].
  intros [Hc Hs]%andb_true_iff.
  destruct (is_linebreak c); [done|]. simpl. by rewrite Hc, IH.
Qed.

Lemma split_from_forallb (q : N → bool) s cur :
  forallb q cur = true → forallb q s = true →
  Forall (λ t, forallb q t = true) (split_from cur s).
Proof.
  revert cur. induction s as [|c s IH]; intros cur Hcur Hs; simpl.
  - destruct cur as [|d cur]; simpl; [constructor|].
    constructor; [|constructor].
    change (forallb q (rev (d :: cur)) = true). by rewrite forallb_rev'.
  - simpl in Hs. apply andb_true_iff in Hs as [Hc Hs].
    destruct (isspace c).
    + destruct cur as [|d cur]; simpl; [by apply IH|].
      constructor; [|by apply IH].
      change (forallb q (rev (d :: cur)) = true). by rewrite forallb_rev'.
    + apply IH; [|done]. simpl. by rewrite Hc, Hcur.
Qed.

Lemma command_line_forallb (q : N → bool) body :
  forallb q body = true → forallb q (command_line body) = true.
Proof.
  intros H. unfold command_line.
  by apply strip_forallb, until_linebreak_forallb, strip_forallb.
Qed.

Lemma command_line_app_blank ws s :
  blank ws = true → command_line (ws ++ s) = command_line s.
Proof. intros H. unfold command_line. by rewrite strip_app_blank. Qed.

Lemma command_line_blank s : blank s = true → command_line s = [].
Proof. intros H. unfold command_line. by rewrite (strip_blank s). Qed.

Lemma command_line_lineless l : lineless l = true → command_line l = str_strip l.
Proof.
  intros H. unfold command_line.
  rewrite until_linebreak_lineless; [apply strip_idem|].
  by apply strip_forallb.
Qed.

Lemma command_line_first body l c rest :
  str_strip body = l ++ c :: rest → lineless l = true → is_linebreak c = true →
  command_line body = command_line l.
Proof.
  intros E Hl Hc. rewrite (command_line_lineless l) by done.
  unfold command_line. rewrite E. by rewrite until_linebreak_app.
Qed.

Lemma until_linebreak_is_lineless s : lineless (until_linebreak s) = true.
Proof.
  unfold lineless. induction s as [|c s IH]; simpl; [done|].
  destruct (is_linebreak c) eqn:E; [done|]. simpl. by rewrite E, IH.
Qed.

Lemma command_line_first_line body :
  command_line (until_linebreak (str_strip body)) = command_line body.
Proof.
  rewrite command_line_lineless by apply until_linebreak_is_lineless.
  reflexivity.
Qed.

Lemma command_line_spaceless t : spaceless t = true → command_line t = t.
Proof.
  intros H. rewrite command_line_lineless by by apply spaceless_lineless.
  by apply strip_spaceless.
Qed.

(** * The parser *)

Section ParserFacts.
Context {CM : CaseMapping}.

Lemma lower_nil : str_lower [] = [].
Proof. by rewrite lower_ascii. Qed.

(** [parse_command] never takes an index out of range: it returns what
    [command_of_parts] makes of the tokens of the command line. *)
Lemma parse_command_spec body :
  parse_command body
  = Ok (command_of_parts body (str_split (command_line body))).
Proof.
  unfold parse_command, command_line.
  destruct body as [|b body]; [done|].
  change (py_not (b :: body)) with false. cbv iota.
  destruct (str_strip (b :: body)) as [|c r] eqn:E; [done|].
  change (py_not (c :: r)) with false. cbv iota zeta.
  rewrite splitlines_first by done.
  generalize (until_linebreak (c :: r)). intros line.
  unfold mbind, result_bind.
  destruct (str_strip line) as [|c' r']; [done|].
  change (py_not (c' :: r')) with false. cbv iota.
  destruct (str_split (c' :: r')) as [|raw_name args]; [done|].
  cbn [py_not index0 drop command_of_parts].
  by destruct (py_not (normalize_command_name raw_name)).
Qed.

Lemma parse_command_same_line body body' :
  command_line body = command_line body' →
  parse_command body = with_raw_text body (parse_command body').
Proof.
  intros E. rewrite !parse_command_spec, E.
  destruct (str_split (command_line body')) as [|raw_name args]; [done|].
  simpl. by destruct (py_not (normalize_command_name raw_name)).
Qed.

Lemma normalize_spaceless t :
  spaceless t = true →
  normalize_command_name t = str_lower (str_lstrip_chars [marker] t).
Proof. intros H. unfold normalize_command_name. by rewrite strip_spaceless. Qed.

End ParserFacts.

(** On a body of ASCII code points every case mapping parses as
    [ascii_case] does. *)
Lemma parse_command_ascii {CM : CaseMapping} body :
  forallb is_ascii body = true →
  parse_command body = parse_command (CM := ascii_case) body.
Proof.
  intros H. rewrite !parse_command_spec. f_equal.
  pose proof (split_from_forallb is_ascii (command_line body) [] eq_refl
                (command_line_forallb _ _ H)) as Hparts.
  fold (str_split (command_line body)) in Hparts.
  destruct (str_split (command_line body)) as [|raw_name args]; [done|].
  apply Forall_cons in Hparts as [Hraw _].
  unfold command_of_parts, normalize_command_name.
  rewrite (lower_ascii (CaseMapping := CM)); [done|].
  by apply drop_while_forallb, strip_forallb.
Qed.

Lemma raw_text_with_raw_text body r cmd :
  with_raw_text body r = Ok (Some cmd) → raw_text cmd = body.
Proof.
  destruct r as [[c|]|e]; simpl; [|discriminate..]. by intros [= <-].
Qed.

Section ParserClaims.
Context {CM : CaseMapping}.

Lemma parse_command_raw_text body cmd :
  parse_command body = Ok (Some cmd) → raw_text cmd = body.
Proof.
  rewrite (parse_command_same_line body body) by done.
  apply raw_text_with_raw_text.
Qed.

(** C4.  A single token parses by its normalised name (trimmed,
    leading markers stripped, lowercased): when the name is not empty
    the result is the command of that name, without arguments and with
    the input itself as [raw_text].  The name is not empty as soon as
    something follows the leading markers; in particular ["/Foo"]
    parses to the command ["foo"]. *)
Theorem parse_command_single_token :
  (∀ t, t ≠ [] → spaceless t = true →
     parse_command t
     = Ok (if py_not (normalize_command_name t) then None
           else Some (mk_Command (normalize_command_name t) [] t)))
  ∧ (∀ t, spaceless t = true → str_lstrip_chars [marker] t ≠ [] →
       parse_command t = Ok (Some (mk_Command (normalize_command_name t) [] t)))
  ∧ parse_command (U "/Foo") = Ok (Some (mk_Command (U "foo") [] (U "/Foo"))).
Proof.
  assert (∀ t, t ≠ [] → spaceless t = true →
            parse_command t = Ok (command_of_parts t [t])) as Htok.
  { intros t Hne Ht.
    rewrite parse_command_spec, command_line_spaceless by done.
    by rewrite split_spaceless. }
  split; [|split].
  - intros t Hne Ht. by rewrite Htok.
  - intros t Ht Hname.
    assert (t ≠ []) as Hne by (by intros ->).
    rewrite Htok by done. unfold command_of_parts.
    destruct (normalize_command_name t) as [|c n] eqn:E; [|done].
    rewrite normalize_spaceless in E by done.
    by apply lower_nil_inv in E.
  - by rewrite parse_command_ascii.
Qed.

(** C5.  Name and arguments come from the first line of the trimmed
    body alone: the body parses as that line does, and when the trimmed
    body is a line, a boundary and more text, the text after the
    boundary plays no part.  [raw_text] is the whole body as given. *)
Theorem parse_command_first_line_only :
  (∀ body,
     parse_command body
     = with_raw_text body (parse_command (until_linebreak (str_strip body))))
  ∧ (∀ body line c rest,
       str_strip body = line ++ c :: rest →
       lineless line = true → is_linebreak c = true →
       parse_command body = with_raw_text body (parse_command line))
  ∧ (∀ body cmd, parse_command body = Ok (Some cmd) → raw_text cmd = body)
  ∧ parse_command (U "/reload a b" ++ [10] ++ U "ignored second line")
    = Ok (Some (mk_Command (U "reload") [U "a"; U "b"]
                  (U "/reload a b" ++ [10] ++ U "ignored second line"))).
Proof.
  split; [|split; [|split]].
  - intros body. apply parse_command_same_line.
    by rewrite command_line_first_line.
  - intros body line c rest E Hl Hc.
    apply parse_command_same_line. by apply (command_line_first _ _ c rest).
  - apply parse_command_raw_text.
  - by rewrite parse_command_ascii.
Qed.

(** C6.  The empty string and every string of whitespace parse to
    [None], so does the marker alone, and [parse_command] raises on no
    string: every body has a result. *)
Theorem parse_command_absent_never_raises :
  (∀ body, blank body = true → parse_command body = Ok None)
  ∧ parse_command (U "/") = Ok None
  ∧ (∀ body, ∃ r, parse_command body = Ok r).
Proof.
  split; [|split].
  - intros body H.
    by rewrite parse_command_spec, command_line_blank, split_blank.
  - by rewrite parse_command_ascii.
  - intros body. rewrite parse_command_spec. by eexists.
Qed.

(** A token made of markers only names no command. *)
Lemma parse_command_markers_only t :
  forallb (λ c, mem c [marker]) t = true → parse_command t = Ok None.
Proof.
  intros H. destruct t as [|c t]; [done|].
  assert (spaceless (c :: t) = true) as Hs.
  { unfold spaceless. clear -H. induction (c :: t) as [|d s IH]; [done|].
    simpl in *. apply andb_true_iff in H as [Hd Hs]. rewrite (IH Hs).
    unfold mem in Hd. simpl in Hd. rewrite orb_false_r in Hd.
    apply N.eqb_eq in Hd. by subst d. }
  rewrite parse_command_spec, command_line_spaceless by done.
  rewrite split_spaceless by done. unfold command_of_parts.
  rewrite normalize_spaceless by done.
  unfold str_lstrip_chars. rewrite drop_while_all by done.
  by rewrite lower_nil.
Qed.

(** C7 (amended).  Whitespace in front of a text, blank lines included,
    is removed by the outer trim: the body parses as the text after it
    does, with the whole body as [raw_text].  A command line that
    follows blank lines is therefore parsed as a command. *)
Theorem parse_command_leading_blank_lines blanks rest :
  blank blanks = true →
  parse_command (blanks ++ rest)
  = with_raw_text (blanks ++ rest) (parse_command rest).
Proof.
  intros H. apply parse_command_same_line. by apply command_line_app_blank.
Qed.

(** C10.  A parsed command has a non-empty name that is its own
    lowercasing and does not start with the marker; its arguments are
    non-empty and free of whitespace, and together with the raw name
    they are the tokens of the command line, in order. *)
Theorem parse_command_invariant body cmd :
  parse_command body = Ok (Some cmd) →
  name cmd ≠ []
  ∧ str_lower (name cmd) = name cmd
  ∧ head (name cmd) ≠ Some marker
  ∧ Forall (λ a, a ≠ [] ∧ spaceless a = true) (args cmd)
  ∧ ∃ raw_name,
      tokens (command_line body) (raw_name :: args cmd)
      ∧ name cmd = normalize_command_name raw_name.
Proof.
  rewrite parse_command_spec. intros [= H].
  pose proof (split_tokens (command_line body)) as Htok.
  destruct (str_split (command_line body)) as [|raw_name args]; [done|].
  simpl in H.
  destruct (normalize_command_name raw_name) as [|c n] eqn:E; [done|].
  injection H as <-. simpl.
  split; [done|]. split; [|split; [|split]].
  - rewrite <- E. unfold normalize_command_name. apply lower_idem.
  - intros [= ->]. unfold normalize_command_name in E.
    assert (head (str_lower (str_lstrip_chars [marker] (str_strip raw_name)))
            = Some marker) as Hm by by rewrite E.
    apply lower_head_marker in Hm. unfold str_lstrip_chars in Hm.
    destruct (drop_while _ _) as [|d x] eqn:Ed; [done|].
    apply drop_while_head in Ed. simpl in Hm. injection Hm as ->.
    done.
  - apply tokens_Forall in Htok. by apply Forall_cons in Htok as [_ ?].
  - exists raw_name. by rewrite E.
Qed.

End ParserClaims.

(** * The registry *)

Section RegistryFacts.
Context {CM : CaseMapping} {World : Type}.
Implicit Types (h : handler World) (reg : gmap str (handler World)).

Lemma register_insert n h reg :
  register n h reg = <[normalize_command_name n := h]> reg.
Proof. reflexivity. Qed.

Lemma command_returns_func n h reg : (command n h reg).1 = h.
Proof. reflexivity. Qed.

Lemma register_lookup n h reg :
  register n h reg !! normalize_command_name n = Some h.
Proof. rewrite register_insert. apply lookup_insert_eq. Qed.

Lemma register_lookup_other n h reg k :
  k ≠ normalize_command_name n → register n h reg !! k = reg !! k.
Proof. intros H. rewrite register_insert. by apply lookup_insert_ne. Qed.

(** A handler registered under a raw token is the one found under the
    name the parser gives that token. *)
Lemma registered_token_is_found t h reg cmd :
  spaceless t = true → parse_command t = Ok (Some cmd) →
  register t h reg !! name cmd = Some h.
Proof.
  intros Ht. rewrite parse_command_spec, command_line_spaceless by done.
  destruct t as [|c t]; [done|].
  rewrite split_spaceless by done. unfold command_of_parts.
  destruct (py_not _); [done|]. intros [= <-]. apply register_lookup.
Qed.

Lemma normalize_ascii n :
  forallb is_ascii n = true →
  normalize_command_name n
  = map ascii_lower (str_lstrip_chars [marker] (str_strip n)).
Proof.
  intros H. unfold normalize_command_name. apply lower_ascii.
  by apply drop_while_forallb, strip_forallb.
Qed.

(** The module registers its handlers under [check_campus_ip],
    [health] and [device_health], whatever the case mapping. *)
Lemma module_registry_lookup h1 h2 h3 :
  module_registry h1 h2 h3 !! U "check_campus_ip" = Some h1
  ∧ module_registry h1 h2 h3 !! U "health" = Some h2
  ∧ module_registry h1 h2 h3 !! U "device_health" = Some h3
  ∧ module_registry h1 h2 h3 !! U "/health" = None.
Proof.
  unfold module_registry, command. cbn [snd].
  rewrite !normalize_ascii by reflexivity.
  change (map ascii_lower (str_lstrip_chars [marker] (str_strip (U "check_campus_ip"))))
    with (U "check_campus_ip").
  change (map ascii_lower (str_lstrip_chars [marker] (str_strip (U "/health"))))
    with (U "health").
  change (map ascii_lower (str_lstrip_chars [marker] (str_strip (U "/device_health"))))
    with (U "device_health").
  split; [|split; [|split]].
  - rewrite !lookup_insert_ne by discriminate. apply lookup_insert_eq.
  - rewrite lookup_insert_ne by discriminate. apply lookup_insert_eq.
  - apply lookup_insert_eq.
  - rewrite !lookup_insert_ne by discriminate. apply lookup_empty.
Qed.

(** C9.  [register] stores the handler under the normalised name; when
    two raw names have the same normalisation, registering under the
    first and then under the second leaves the second handler under
    that name, exactly as if the first registration had not happened,
    and touches no other name. *)
Theorem register_last_wins n1 n2 h1 h2 reg :
  normalize_command_name n1 = normalize_command_name n2 →
  register n1 h1 reg !! normalize_command_name n1 = Some h1
  ∧ register n2 h2 (register n1 h1 reg) !! normalize_command_name n1 = Some h2
  ∧ register n2 h2 (register n1 h1 reg) = register n2 h2 reg
  ∧ ∀ k, k ≠ normalize_command_name n1 →
         register n2 h2 (register n1 h1 reg) !! k = reg !! k.
Proof.
  intros E. split; [apply register_lookup|].
  rewrite !register_insert, E. split; [apply lookup_insert_eq|].
  split; [apply insert_insert_eq|].
  intros k Hk. by rewrite !lookup_insert_ne.
Qed.

End RegistryFacts.

(** * The dispatcher *)

Ltac run_dispatcher :=
  unfold handle_command, mbind, M_bind, mret, M_ret, try_except_Exception,
    call, call_repr, logger_info, logger_warning, logger_error, logger_call;
  cbn [logged world].

Section DispatcherFacts.
Context {World : Type} {PR : PyRepr World}.
Implicit Types (h : handler World) (reg : gmap str (handler World)).
Implicit Types (st : state World) (cmd : Command) (meta : pyval).


(** C2.  When the registry has no entry for the name of the command,
    the dispatcher logs the start, a warning and the end, and returns
    the [handler_not_found] outcome with the name, arguments and meta
    it was given; it does not raise and leaves the world alone. *)
Theorem handle_command_not_found reg cmd meta st :
  reg !! name cmd = None →
  let result := VDict [
    (U "handled", VBool false);
    (U "reason", VStr (U "handler_not_found"));
    (U "command", VStr (name cmd));
    (U "args", VList (VStr <$> args cmd));
    (U "meta", meta)] in
  handle_command reg cmd meta st
  = (Ok result,
     mk_state
       (logged st ++ [
          mk_log INFO (U "COMMAND_HANDLE_START name=%s args=%s meta=%s")
            [VStr (name cmd); VList (VStr <$> args cmd); meta];
          mk_log WARNING (U "COMMAND_HANDLER_NOT_FOUND name=%s")
            [VStr (name cmd)];
          mk_log INFO (U "COMMAND_HANDLE_END result=%s") [result]])
       (world st)).
Proof.
  intros H result. run_dispatcher. rewrite H. cbn [logged world]. by rewrite <- !app_assoc.
Qed.

(** C3.  When the registry maps the name to a handler and the handler,
    called with the arguments of the command as its positional
    arguments, returns a value, the outcome has [handled] true and that
    value as [handler_result]; the handler runs once, on the world the
    dispatcher was entered with. *)
Theorem handle_command_handled reg cmd meta st h v w :
  reg !! name cmd = Some h →
  h (VStr <$> args cmd) (world st) = (Ok v, w) →
  let result := VDict [
    (U "handled", VBool true);
    (U "command", VStr (name cmd));
    (U "args", VList (VStr <$> args cmd));
    (U "meta", meta);
    (U "handler_result", v)] in
  handle_command reg cmd meta st
  = (Ok result,
     mk_state
       (logged st ++ [
          mk_log INFO (U "COMMAND_HANDLE_START name=%s args=%s meta=%s")
            [VStr (name cmd); VList (VStr <$> args cmd); meta];
          mk_log INFO (U "COMMAND_HANDLE_END result=%s") [result]])
       w).
Proof.
  intros H Hh result. run_dispatcher.
  rewrite H. cbn [logged world]. rewrite Hh.
  cbn [logged world]. by rewrite <- !app_assoc.
Qed.



End DispatcherFacts.

Section OutcomeFacts.
Context {World : Type} {PR : PyRepr World}.
Implicit Types (reg : gmap str (handler World)) (st : state World).

(** C8 (amended).  An outcome with [handled] false has no
    [handler_result] and a [reason] that is [handler_not_found], in
    which case it has no [error] field, or [handler_exception], in
    which case it has one; an outcome with [handled] true has a
    [handler_result] and neither [reason] nor [error]. *)
Theorem handle_command_outcome_fields reg cmd meta st r st' :
  handle_command reg cmd meta st = (Ok r, st') →
  (dict_get r (U "handled") = Some (VBool false)
   ∧ dict_get r (U "handler_result") = None
   ∧ ((dict_get r (U "reason") = Some (VStr (U "handler_not_found"))
       ∧ dict_get r (U "error") = None)
      ∨ (dict_get r (U "reason") = Some (VStr (U "handler_exception"))
         ∧ ∃ e, dict_get r (U "error") = Some (VStr e))))
  ∨ (dict_get r (U "handled") = Some (VBool true)
     ∧ (∃ v, dict_get r (U "handler_result") = Some v)
     ∧ dict_get r (U "reason") = None
     ∧ dict_get r (U "error") = None).
Proof.
  run_dispatcher.
  destruct (reg !! name cmd) as [h|]; cbn [logged world].
  - destruct (h (VStr <$> args cmd) (world st)) as [[v|e] w].
    + intros [= <- _]. right. by eauto.
    + destruct (exn_is_Exception e); [|discriminate].
      cbn [logged world].
      destruct (py_repr e w) as [[s1|e1] w1]; [|discriminate].
      cbn [logged world].
      destruct (py_repr e w1) as [[s2|e2] w2]; [|discriminate].
      intros [= <- _]. left. split; [done|]. split; [done|]. right. by eauto.
  - intros [= <- _]. left. split; [done|]. split; [done|]. by left.
Qed.

End OutcomeFacts.

(** * Instances at concrete inputs *)

(** C4 at the token ["/Health"]: one capital, one marker. *)
Lemma parse_command_single_token_witness :
  parse_command (CM := ascii_case) (U "/Health")
  = Ok (Some (mk_Command (U "health") [] (U "/Health"))).
Proof.
  apply (proj1 (proj2 (parse_command_single_token (CM := ascii_case)))
           (U "/Health")).
  - reflexivity.
  - discriminate.
Defined.

(** C5 at a body whose second line looks like another command. *)
Lemma parse_command_first_line_only_witness :
  parse_command (CM := ascii_case)
    (U "  /Reload a b" ++ [13; 10] ++ U "/other c d")
  = Ok (Some (mk_Command (U "reload") [U "a"; U "b"]
                (U "  /Reload a b" ++ [13; 10] ++ U "/other c d"))).
Proof.
  apply (proj1 (proj2 (parse_command_first_line_only (CM := ascii_case)))
           (U "  /Reload a b" ++ [13; 10] ++ U "/other c d")
           (U "/Reload a b") 13 ([10] ++ U "/other c d"));
    reflexivity.
Defined.

(** C6 at a body of a space, a tab and a line feed. *)
Lemma parse_command_absent_witness :
  parse_command (CM := ascii_case) [32; 9; 10] = Ok None.
Proof.
  apply (proj1 (parse_command_absent_never_raises (CM := ascii_case))).
  reflexivity.
Defined.

(** C7: a blank line followed by the command line ["/health"] parses
    to the command [health]; it does not parse to [None]. *)
Lemma blank_line_then_command_is_parsed :
  parse_command (CM := ascii_case) ([32; 10] ++ U "/health")
  = Ok (Some (mk_Command (U "health") [] ([32; 10] ++ U "/health")))
  ∧ ¬ (∀ (CM : CaseMapping) (blanks line : str) (cmd : Command),
         blank blanks = true →
         existsb is_linebreak blanks = true →
         parse_command line = Ok (Some cmd) →
         parse_command (blanks ++ line) = Ok None).
Proof.
  split; [reflexivity|].
  intros H.
  specialize (H ascii_case [32; 10] (U "/health") _ eq_refl eq_refl eq_refl).
  discriminate H.
Qed.

(** C7 (amended) at the same body. *)
Lemma parse_command_leading_blank_lines_witness :
  parse_command (CM := ascii_case) ([32; 10] ++ U "/health")
  = Ok (Some (mk_Command (U "health") [] ([32; 10] ++ U "/health"))).
Proof.
  apply (parse_command_leading_blank_lines (CM := ascii_case)
           [32; 10] (U "/health")).
  reflexivity.
Defined.

(** C10 at ["/Reload a b"]. *)
Lemma parse_command_invariant_witness :
  let cmd := mk_Command (U "reload") [U "a"; U "b"] (U "/Reload a b") in
  parse_command (CM := ascii_case) (U "/Reload a b") = Ok (Some cmd)
  ∧ name cmd ≠ []
  ∧ str_lower (CaseMapping := ascii_case) (name cmd) = name cmd
  ∧ head (name cmd) ≠ Some marker
  ∧ Forall (λ a, a ≠ [] ∧ spaceless a = true) (args cmd).
Proof.
  intros cmd.
  destruct (parse_command_invariant (CM := ascii_case) (U "/Reload a b") cmd
              eq_refl) as (H1 & H2 & H3 & H4 & _).
  split; [reflexivity|]. split; [exact H1|]. split; [exact H2|].
  split; [exact H3|exact H4].
Defined.

(** C9 at the raw names ["/Reload"] and [" reload "], both of which
    normalise to ["reload"]. *)
Lemma register_last_wins_witness :
  register (CM := ascii_case) (U " reload ") failing_handler
    (register (CM := ascii_case) (U "/Reload") echo_handler ∅)
    !! U "reload"
  = Some failing_handler.
Proof.
  apply (register_last_wins (CM := ascii_case)
           (U "/Reload") (U " reload ") echo_handler failing_handler ∅).
  reflexivity.
Defined.

(** C2 at an empty registry. *)
Lemma handle_command_not_found_witness :
  (handle_command (PR := default_repr (World := unit)) ∅
     (mk_Command (U "nope") [U "x"] (U "/nope x")) VNone (mk_state [] tt)).1
  = Ok (VDict [
      (U "handled", VBool false);
      (U "reason", VStr (U "handler_not_found"));
      (U "command", VStr (U "nope"));
      (U "args", VList [VStr (U "x")]);
      (U "meta", VNone)]).
Proof.
  rewrite (handle_command_not_found (PR := default_repr (World := unit)) ∅
             (mk_Command (U "nope") [U "x"] (U "/nope x")) VNone
             (mk_state [] tt) (lookup_empty _)).
  reflexivity.
Defined.

(** C3 at the arguments ["x"] and ["y"]: the handler that returns its
    positional arguments returns the pair of the two strings. *)
Lemma handle_command_handled_witness :
  (handle_command (PR := default_repr) {[ U "echo" := echo_handler ]}
     (mk_Command (U "echo") [U "x"; U "y"] (U "/echo x y")) VNone
     (mk_state [] tt)).1
  = Ok (VDict [
      (U "handled", VBool true);
      (U "command", VStr (U "echo"));
      (U "args", VList [VStr (U "x"); VStr (U "y")]);
      (U "meta", VNone);
      (U "handler_result", VTuple [VStr (U "x"); VStr (U "y")])]).
Proof.
  rewrite (handle_command_handled (PR := default_repr)
             {[ U "echo" := echo_handler ]}
             (mk_Command (U "echo") [U "x"; U "y"] (U "/echo x y")) VNone
             (mk_state [] tt) echo_handler
             (VTuple [VStr (U "x"); VStr (U "y")]) tt
             (lookup_singleton_eq _ _) eq_refl).
  reflexivity.
Defined.


(** C1: the [repr] of the exception is the class's own.  With a
    [__repr__] that raises, the dispatcher raises although the handler
    raised an exception of class [Exception]; with one that returns the
    empty string, the [error] of the outcome is empty. *)
Lemma handler_repr_raises_propagates :
  handle_command (PR := raising_repr) {[ U "fail" := failing_handler ]}
    (mk_Command (U "fail") [] (U "/fail")) VNone (mk_state [] tt)
  = (Raise (mk_exn (U "RuntimeError") [U "'no repr'"] true),
     mk_state
       [mk_log INFO (U "COMMAND_HANDLE_START name=%s args=%s meta=%s")
          [VStr (U "fail"); VList []; VNone]] tt).
Proof. run_dispatcher. by rewrite lookup_singleton_eq. Qed.

Lemma handler_empty_repr_gives_empty_error :
  ∃ r,
    (handle_command (PR := empty_repr) {[ U "fail" := failing_handler ]}
       (mk_Command (U "fail") [] (U "/fail")) VNone (mk_state [] tt)).1
    = Ok r
    ∧ dict_get r (U "reason") = Some (VStr (U "handler_exception"))
    ∧ dict_get r (U "error") = Some (VStr []).
Proof.
  eexists. split; [|split].
  - run_dispatcher. by rewrite lookup_singleton_eq.
  - reflexivity.
  - reflexivity.
Qed.


(** C8: the outcome of a dispatch on an unregistered name has
    [handled] false and no [error] field. *)
Lemma not_found_outcome_has_no_error :
  ∃ r,
    (handle_command (PR := default_repr (World := unit)) ∅
       (mk_Command (U "nope") [] (U "/nope")) VNone (mk_state [] tt)).1
    = Ok r
    ∧ dict_get r (U "handled") = Some (VBool false)
    ∧ dict_get r (U "error") = None.
Proof.
  exists (VDict [
    (U "handled", VBool false);
    (U "reason", VStr (U "handler_not_found"));
    (U "command", VStr (U "nope"));
    (U "args", VList []);
    (U "meta", VNone)]).
  split; [|by split].
  run_dispatcher. by rewrite lookup_empty.
Qed.

(** C8 (amended) at the same dispatch. *)
Lemma handle_command_outcome_fields_witness :
  let r := VDict [
    (U "handled", VBool false);
    (U "reason", VStr (U "handler_not_found"));
    (U "command", VStr (U "nope"));
    (U "args", VList []);
    (U "meta", VNone)] in
  dict_get r (U "reason") = Some (VStr (U "handler_not_found"))
  ∧ dict_get r (U "error") = None.
Proof.
  intros r.
  assert (handle_command (PR := default_repr (World := unit)) ∅
            (mk_Command (U "nope") [] (U "/nope")) VNone (mk_state [] tt)
          = (Ok r,
             mk_state [
               mk_log INFO (U "COMMAND_HANDLE_START name=%s args=%s meta=%s")
                 [VStr (U "nope"); VList []; VNone];
               mk_log WARNING (U "COMMAND_HANDLER_NOT_FOUND name=%s")
                 [VStr (U "nope")];
               mk_log INFO (U "COMMAND_HANDLE_END result=%s") [r]] tt)) as E.
  { run_dispatcher. by rewrite lookup_empty. }
  destruct (handle_command_outcome_fields _ _ _ _ _ _ E)
    as [(_ & _ & [H|[H _]])|[H _]].
  - exact H.
  - discriminate H.
  - discriminate H.
Defined.

(** * Further properties of the parser, the registry and the dispatcher *)

Lemma split_from_blank_prefix ws s :
  blank ws = true → split_from [] (ws ++ s) = split_from [] s.
Proof.
  unfold blank. induction ws as [|c ws IH]; simpl; [done|].
  intros [Hc Hws]%andb_true_iff. rewrite Hc. by apply IH.
Qed.

Lemma split_from_token t cur rest :
  spaceless t = true →
  split_from cur (t ++ rest) = split_from (rev t ++ cur) rest.
Proof.
  revert cur. unfold spaceless.
  induction t as [|c t IH]; intros cur H; simpl; [done|].
  simpl in H. apply andb_true_iff in H as [Hc Ht].
  apply negb_true_iff in Hc. rewrite Hc, IH by done.
  by rewrite <- app_assoc.
Qed.

(** [split] finds the tokens and nothing else. *)
Lemma tokens_split s ts : tokens s ts → str_split s = ts.
Proof.
  unfold str_split.
  induction 1 as [ws Hws|ws t rest ts Hws Hne Ht Hrest _ IH].
  - by apply split_blank.
  - rewrite split_from_blank_prefix, split_from_token by done.
    rewrite app_nil_r.
    assert (rev t ≠ []) as Hrev.
    { intros E. apply Hne. by rewrite <- (rev_involutive t), E. }
    destruct rest as [|c rest]; simpl.
    + destruct (rev t) as [|d l] eqn:E; [done|].
      change (py_not (d :: l)) with false. cbv iota.
      rewrite <- E, rev_involutive. f_equal. by rewrite <- IH.
    + rewrite Hrest. destruct (rev t) as [|d l] eqn:E; [done|].
      change (py_not (d :: l)) with false. cbv iota.
      rewrite <- E, rev_involutive. f_equal.
      rewrite <- IH. simpl. by rewrite Hrest.
Qed.

Lemma tokens_join ts :
  Forall (λ t, t ≠ [] ∧ spaceless t = true) ts →
  tokens (str_join [32] ts) ts.
Proof.
  induction 1 as [|t ts [Hne Ht] Hts IH]; [by apply tokens_nil|].
  destruct ts as [|t' ts].
  - simpl. rewrite <- (app_nil_r t) at 1.
    change (tokens ([] ++ t ++ []) [t]).
    by apply (tokens_cons [] t [] []).
  - change (str_join [32] (t :: t' :: ts))
      with ([] ++ t ++ (32 :: str_join [32] (t' :: ts))).
    apply tokens_cons; try done.
    by apply tokens_space.
Qed.

Lemma lineless_app s t : lineless (s ++ t) = lineless s && lineless t.
Proof. apply forallb_app. Qed.

Lemma join_lineless ts :
  Forall (λ t, t ≠ [] ∧ spaceless t = true) ts →
  lineless (str_join [32] ts) = true.
Proof.
  induction 1 as [|t ts [Hne Ht] Hts IH]; [done|].
  destruct ts as [|t' ts].
  - simpl. by apply spaceless_lineless.
  - change (str_join [32] (t :: t' :: ts))
      with (t ++ [32] ++ str_join [32] (t' :: ts)).
    rewrite !lineless_app, IH, (spaceless_lineless t) by done.
    reflexivity.
Qed.

(** A joined list of tokens neither starts nor ends with whitespace. *)
Lemma join_strip ts :
  Forall (λ t, t ≠ [] ∧ spaceless t = true) ts →
  str_strip (str_join [32] ts) = str_join [32] ts.
Proof.
  intros H. apply strip_fixed.
  - destruct H as [|t ts [Hne Ht] Hts]; [done|].
    destruct t as [|c t]; [done|].
    unfold spaceless in Ht. simpl in Ht.
    apply andb_true_iff in Ht as [Hc _]. apply negb_true_iff in Hc.
    by destruct ts.
  - induction H as [|t ts [Hne Ht] Hts IH]; intros r c E.
    + by destruct r.
    + destruct ts as [|t' ts].
      * simpl in E. subst t. rewrite spaceless_app in Ht.
        apply andb_true_iff in Ht as [_ Hc]. unfold spaceless in Hc.
        simpl in Hc. rewrite andb_true_r in Hc. by apply negb_true_iff.
      * change (str_join [32] (t :: t' :: ts))
          with (t ++ [32] ++ str_join [32] (t' :: ts)) in E.
        destruct (exists_last (l := str_join [32] (t' :: ts)))
          as (r' & c' & E').
        { destruct t'; [by inversion Hts as [|? ? [? ?] ?]|]. by destruct ts. }
        rewrite E' in E. rewrite !app_assoc in E.
        apply app_inj_tail in E as [_ <-]. by apply (IH r').
Qed.

Section MoreParserFacts.
Context {CM : CaseMapping}.

(** X1.  The parse is decided by the tokens of the command line: with
    no token there is no command; otherwise the first token,
    normalised, is the name, the other tokens are the arguments, and
    an empty name gives no command.  How much whitespace separates the
    tokens plays no part. *)
Theorem parse_command_of_tokens body ts :
  tokens (command_line body) ts →
  parse_command body
  = Ok match ts with
       | [] => None
       | raw_name :: args =>
           if py_not (normalize_command_name raw_name) then None
           else Some (mk_Command (normalize_command_name raw_name) args body)
       end.
Proof.
  intros H. rewrite parse_command_spec, (tokens_split _ _ H).
  by destruct ts.
Qed.

Lemma normalize_marker_name n :
  spaceless n = true → head n ≠ Some marker →
  normalize_command_name (marker :: n) = str_lower n.
Proof.
  intros Hn Hhead. unfold normalize_command_name.
  rewrite strip_spaceless by done.
  unfold str_lstrip_chars. simpl.
  destruct n as [|c n]; [done|]. simpl.
  destruct (c =? marker) eqn:E; [|done].
  apply N.eqb_eq in E. by subst c.
Qed.

(** X2.  Writing a command out and parsing it gives the command back:
    for a name that is not empty, has no whitespace, does not start
    with the marker and is its own lowercasing, and arguments that are
    not empty and have no whitespace, the marker followed by the name
    and the arguments, joined by single spaces, parses to that name and
    those arguments. *)
Theorem parse_command_render n args :
  n ≠ [] → spaceless n = true → head n ≠ Some marker → str_lower n = n →
  Forall (λ a, a ≠ [] ∧ spaceless a = true) args →
  parse_command (str_join [32] ((marker :: n) :: args))
  = Ok (Some (mk_Command n args (str_join [32] ((marker :: n) :: args)))).
Proof.
  intros Hne Hn Hhead Hlow Hargs.
  assert (Forall (λ t, t ≠ [] ∧ spaceless t = true) ((marker :: n) :: args))
    as Hts.
  { constructor; [|done]. split; [done|].
    unfold spaceless in *. simpl. by rewrite Hn. }
  rewrite (parse_command_of_tokens _ ((marker :: n) :: args)).
  - rewrite normalize_marker_name, Hlow by done. by destruct n.
  - rewrite command_line_lineless by by apply join_lineless.
    rewrite join_strip by done. by apply tokens_join.
Qed.

End MoreParserFacts.

Lemma ascii_lower_isspace c : isspace (ascii_lower c) = isspace c.
Proof.
  unfold ascii_lower.
  destruct ((65 <=? c) && (c <=? 90)) eqn:E; [|done].
  apply andb_true_iff in E as [H1 H2]. apply N.leb_le in H1, H2.
  assert (∀ d, 65 ≤ d → d ≤ 122 → isspace d = false) as Hno.
  { intros d Hd1 Hd2. unfold isspace, mem, whitespace_code_points.
    apply not_true_is_false. intros H.
    apply existsb_exists in H as (x & Hx & Ex). apply N.eqb_eq in Ex.
    subst x. simpl in Hx.
    repeat (destruct Hx as [<-|Hx]; [lia|]). destruct Hx. }
  rewrite !Hno by lia. done.
Qed.

Lemma ascii_lower_is_ascii c : is_ascii c = true → is_ascii (ascii_lower c) = true.
Proof.
  unfold is_ascii, ascii_lower. intros H%N.ltb_lt.
  destruct ((65 <=? c) && (c <=? 90)) eqn:E; apply N.ltb_lt; [|done].
  apply andb_true_iff in E as [H1 H2]. apply N.leb_le in H1, H2. lia.
Qed.

Lemma map_ascii_lower_spaceless s :
  spaceless (map ascii_lower s) = spaceless s.
Proof.
  unfold spaceless. induction s as [|c s IH]; simpl; [done|].
  by rewrite ascii_lower_isspace, IH.
Qed.

Lemma map_ascii_lower_is_ascii s :
  forallb is_ascii s = true → forallb is_ascii (map ascii_lower s) = true.
Proof.
  induction s as [|c s IH]; simpl; [done|].
  intros [Hc Hs]%andb_true_iff. by rewrite ascii_lower_is_ascii, IH.
Qed.

Lemma map_ascii_lower_idem s :
  map ascii_lower (map ascii_lower s) = map ascii_lower s.
Proof. apply (lower_idem (CaseMapping := ascii_case)). Qed.

Section AsciiNames.
Context {CM : CaseMapping} {World : Type}.
Implicit Types (h : handler World) (reg : gmap str (handler World)).

(** The name of a command parsed from an ASCII body has no whitespace
    and is left alone by normalisation. *)
Lemma parsed_name_normal body cmd :
  forallb is_ascii body = true →
  parse_command body = Ok (Some cmd) →
  spaceless (name cmd) = true
  ∧ forallb is_ascii (name cmd) = true
  ∧ normalize_command_name (name cmd) = name cmd.
Proof.
  intros Hascii. rewrite parse_command_spec. intros [= H].
  pose proof (split_tokens (command_line body)) as Htok.
  pose proof (split_from_forallb is_ascii (command_line body) [] eq_refl
                (command_line_forallb _ _ Hascii)) as Hparts.
  fold (str_split (command_line body)) in Hparts.
  destruct (str_split (command_line body)) as [|raw_name args]; [done|].
  apply Forall_cons in Hparts as [Hraw _].
  apply tokens_Forall, Forall_cons in Htok as [[_ Hsp] _].
  simpl in H. destruct (py_not _); [done|]. injection H as <-. simpl.
  rewrite (normalize_ascii raw_name) by done.
  rewrite strip_spaceless by done.
  set (x := str_lstrip_chars [marker] raw_name).
  assert (spaceless x = true) as Hx by by apply drop_while_forallb.
  assert (forallb is_ascii x = true) as Hax by by apply drop_while_forallb.
  assert (head (map ascii_lower x) ≠ Some marker) as Hhead.
  { intros Hm. apply (lower_head_marker (CaseMapping := ascii_case)) in Hm.
    subst x. unfold str_lstrip_chars in Hm.
    destruct (drop_while _ _) as [|d y] eqn:Ed; [done|].
    apply drop_while_head in Ed. simpl in Hm. by injection Hm as ->. }
  split; [by rewrite map_ascii_lower_spaceless|].
  split; [by apply map_ascii_lower_is_ascii|].
  rewrite normalize_ascii by by apply map_ascii_lower_is_ascii.
  rewrite strip_spaceless by by rewrite map_ascii_lower_spaceless.
  unfold str_lstrip_chars.
  destruct (map ascii_lower x) as [|d y] eqn:E; [done|].
  rewrite drop_while_keep.
  - rewrite <- E. apply map_ascii_lower_idem.
  - unfold mem. simpl. rewrite orb_false_r. apply N.eqb_neq.
    intros ->. by apply Hhead.
Qed.

(** X3.  For an ASCII body, the name the parser returns is the key the
    decorator would store it under: a handler registered under the
    parsed name is the one the dispatcher looks up for that command. *)
Theorem register_parsed_name body cmd h reg :
  forallb is_ascii body = true →
  parse_command body = Ok (Some cmd) →
  normalize_command_name (name cmd) = name cmd
  ∧ register (name cmd) h reg !! name cmd = Some h.
Proof.
  intros Hascii Hparse.
  destruct (parsed_name_normal body cmd Hascii Hparse) as (_ & _ & E).
  split; [done|].
  pose proof (register_lookup (name cmd) h reg) as H. by rewrite E in H.
Qed.

(** X4.  A handler registered under a name whose normal form holds
    whitespace cannot be reached from any ASCII body: no parsed command
    has that name. *)
Theorem register_spaced_name_unreachable n body cmd :
  spaceless (normalize_command_name n) = false →
  forallb is_ascii body = true →
  parse_command body = Ok (Some cmd) →
  name cmd ≠ normalize_command_name n.
Proof.
  intros Hn Hascii Hparse E.
  destruct (parsed_name_normal body cmd Hascii Hparse) as (Hsp & _ & _).
  congruence.
Qed.

End AsciiNames.

Section MoreDispatcherFacts.
Context {World : Type} {PR : PyRepr World}.
Implicit Types (reg : gmap str (handler World)) (st : state World).

(** X5.  Whatever the registry and the handler do, a dispatch first
    logs the start record after the records already there, and drops
    none of them.  When it returns, the last record is the end record
    with the very outcome returned.  It raises in two cases only, both
    with a registered handler that raised: the exception is not of
    class [Exception] and is passed on as it is, or it is of class
    [Exception] and one of the two evaluations of its [repr] raised. *)
Theorem handle_command_log_discipline reg cmd meta st :
  let start :=
    mk_log INFO (U "COMMAND_HANDLE_START name=%s args=%s meta=%s")
      [VStr (name cmd); VList (VStr <$> args cmd); meta] in
  match handle_command reg cmd meta st with
  | (Ok outcome, st') =>
      ∃ between,
        logged st'
        = logged st ++ [start] ++ between
            ++ [mk_log INFO (U "COMMAND_HANDLE_END result=%s") [outcome]]
  | (Raise raised, st') =>
      (∃ between, logged st' = logged st ++ [start] ++ between)
      ∧ ∃ h e w,
          reg !! name cmd = Some h
          ∧ h (VStr <$> args cmd) (world st) = (Raise e, w)
          ∧ (exn_is_Exception e = false ∧ raised = e
             ∨ exn_is_Exception e = true
               ∧ ((∃ w1, py_repr e w = (Raise raised, w1))
                  ∨ ∃ logged_error w1 w2,
                      py_repr e w = (Ok logged_error, w1)
                      ∧ py_repr e w1 = (Raise raised, w2)))
  end.
Proof.
  intros start. run_dispatcher.
  destruct (reg !! name cmd) as [h|]; cbn [logged world].
  - destruct (h (VStr <$> args cmd) (world st)) as [[v|e] w] eqn:Hh.
    + cbn [logged]. exists []. by rewrite <- !app_assoc.
    + destruct (exn_is_Exception e) eqn:He; cbn [logged world].
      * destruct (py_repr e w) as [[s1|e1] w1] eqn:E1; cbn [logged world].
        -- destruct (py_repr e w1) as [[s2|e2] w2] eqn:E2; cbn [logged world].
           ++ eexists [_]. by rewrite <- !app_assoc.
           ++ split; [eexists [_]; by rewrite <- !app_assoc|].
              exists h, e, w. split; [done|]. split; [done|]. right.
              split; [done|]. right. by eauto.
        -- split; [exists []; by rewrite app_nil_r|].
           exists h, e, w. split; [done|]. split; [done|]. right.
           split; [done|]. left. by eauto.
      * split; [exists []; by rewrite app_nil_r|].
        exists h, e, w. split; [done|]. split; [done|]. by left.
  - eexists [_]. by rewrite <- !app_assoc.
Qed.

End MoreDispatcherFacts.

Section ModuleRegistry.
Context {CM : CaseMapping} {World : Type}.

(** X6.  After the module is loaded the registry holds exactly three
    names, whatever the case mapping: the decorators written with a
    leading marker register under the bare names. *)
Theorem module_registry_keys (check_campus_ip self_health device_health : handler World) k :
  module_registry check_campus_ip self_health device_health !! k
  = if decide (U "device_health" = k) then Some device_health
    else if decide (U "health" = k) then Some self_health
    else if decide (U "check_campus_ip" = k) then Some check_campus_ip
    else None.
Proof.
  unfold module_registry, command. cbn [snd].
  rewrite !normalize_ascii by reflexivity.
  change (map ascii_lower (str_lstrip_chars [marker] (str_strip (U "check_campus_ip"))))
    with (U "check_campus_ip").
  change (map ascii_lower (str_lstrip_chars [marker] (str_strip (U "/health"))))
    with (U "health").
  change (map ascii_lower (str_lstrip_chars [marker] (str_strip (U "/device_health"))))
    with (U "device_health").
  rewrite !lookup_insert, lookup_empty. reflexivity.
Qed.

End ModuleRegistry.

(** X1 at a body with runs of blanks and tabs and a second line. *)
Lemma parse_command_of_tokens_witness :
  parse_command (CM := ascii_case)
    (U "  /Reload   a " ++ [9] ++ U " b" ++ [10] ++ U "rest")
  = Ok (Some (mk_Command (U "reload") [U "a"; U "b"]
                (U "  /Reload   a " ++ [9] ++ U " b" ++ [10] ++ U "rest"))).
Proof.
  apply (parse_command_of_tokens (CM := ascii_case)
           (U "  /Reload   a " ++ [9] ++ U " b" ++ [10] ++ U "rest")
           [U "/Reload"; U "a"; U "b"]).
  exact (split_tokens (U "/Reload   a " ++ [9] ++ U " b")).
Defined.

(** X2 at the command [reload] with two arguments. *)
Lemma parse_command_render_witness :
  parse_command (CM := ascii_case) (U "/reload a b")
  = Ok (Some (mk_Command (U "reload") [U "a"; U "b"] (U "/reload a b"))).
Proof.
  apply (parse_command_render (CM := ascii_case) (U "reload") [U "a"; U "b"]).
  - discriminate.
  - reflexivity.
  - discriminate.
  - reflexivity.
  - repeat constructor; discriminate.
Defined.

(** X3 at the body ["/Health x"]. *)
Lemma register_parsed_name_witness :
  register (CM := ascii_case) (U "health") echo_handler ∅ !! U "health"
  = Some echo_handler.
Proof.
  apply (register_parsed_name (CM := ascii_case) (U "/Health x")
           (mk_Command (U "health") [U "x"] (U "/Health x")) echo_handler ∅);
    reflexivity.
Defined.

(** X4 at a decorator name with a blank after the marker. *)
Lemma register_spaced_name_unreachable_witness :
  U "health" ≠ normalize_command_name (CM := ascii_case) (U "/ health").
Proof.
  apply (register_spaced_name_unreachable (CM := ascii_case) (U "/ health")
           (U "/health") (mk_Command (U "health") [] (U "/health")));
    reflexivity.
Defined.

(** * The mail service *)

Ltac run_eff :=
  unfold mbind, Eff_bind, mret, Eff_ret, pure_call, reads, try_except,
    try_finally, send_logger_call, sleep, io;
  cbn [events send_logged net fst snd].

Section SendFacts.
Context {P : Platform}.
Variable cfg : Config.

(** The world after the pause between two recipients. *)
Let paused (w : MailWorld) : MailWorld :=
  mk_world (events w ++ [EvSleep SEND_INTERVAL_SECONDS]) (send_logged w)
    (time_sleep SEND_INTERVAL_SECONDS (net w)).

(** One turn of the loop: the message cannot be built and the
    exception leaves the loop with the world as it was; or [sendmail]
    raises an exception that is not of class [Exception], which leaves
    the loop as well; or the turn ends with an entry for the recipient,
    after at most one call of [sendmail], and the loop goes on, after a
    pause unless the recipient is the last one. *)
Lemma send_loop_cons subject text_content html_content from_name len idx
    to_addr recipients results w :
  (∃ e, send_loop cfg subject text_content html_content from_name len idx
          (to_addr :: recipients) results w = (Raise e, w))
  ∨ (∃ e text n,
       exn_is_Exception e = false
       ∧ send_loop cfg subject text_content html_content from_name len idx
           (to_addr :: recipients) results w
         = (Raise e,
            mk_world (events w ++ [EvSendmail (EMAIL_FROM cfg) [to_addr] text])
              (send_logged w) n))
  ∨ (∃ ok err evs logs n,
       let w1 := mk_world (events w ++ evs) (send_logged w ++ logs) n in
       (evs = [] ∨ ∃ text, evs = [EvSendmail (EMAIL_FROM cfg) [to_addr] text])
       ∧ (ok = true → err = [] ∧ evs ≠ [])
       ∧ (ok = false → ∃ e, exn_is_Exception e = true ∧ err = repr_exn e)
       ∧ send_loop cfg subject text_content html_content from_name len idx
           (to_addr :: recipients) results w
         = send_loop cfg subject text_content html_content from_name len
             (S idx) recipients (results ++ [result_entry to_addr ok err])
             (if negb (Z.of_nat idx =? Z.of_nat len - 1)%Z then paused w1
              else w1)).
Proof.
  cbn [send_loop]. run_eff.
  destruct (formataddr _ _) as [from_header|e]; [|by left; eauto].
  destruct (Header _ _) as [subject_header|e]; [|by left; eauto].
  destruct (py_not text_content);
    [|destruct (MIMEText text_content _ _) as [text_part|e];
      [|by left; eauto]].
  all: destruct html_content as [html|];
    [destruct (py_not html);
     [|destruct (MIMEText html _ _) as [html_part|e]; [|by left; eauto]]|].
  all: destruct (as_string _) as [text|e];
    [destruct (smtp_sendmail _ _ _ _) as [[[]|e] n] eqn:Esend;
     [|destruct (exn_is_Exception e) eqn:He]
    |destruct (exn_is_Exception e) eqn:He].
  all: try (right; left; by eauto).
  all: try (left; exists e; by destruct w).
  all: right; right.
  all: try (exists true, [], [EvSendmail (EMAIL_FROM cfg) [to_addr] text];
            eexists [_], n; cbv zeta; split; [by eauto|];
            split; [done|]; split; [done|]; unfold result_entry;
            cbn [fst snd]; unfold paused; run_eff;
            by destruct (negb _)).
  all: try (exists false, (repr_exn e),
              [EvSendmail (EMAIL_FROM cfg) [to_addr] text];
            eexists [_], n; cbv zeta; split; [by eauto|];
            split; [done|]; split; [by eauto|]; unfold result_entry;
            cbn [fst snd]; unfold paused; run_eff;
            by destruct (negb _)).
  all: exists false, (repr_exn e), []; eexists [_], (net w); cbv zeta;
    split; [by left|]; split; [done|]; split; [by eauto|];
    unfold result_entry; cbn [fst snd]; unfold paused; run_eff;
    rewrite !app_nil_r; by destruct (negb _), w.
Qed.

Lemma is_send_event_mono recipients recipients' ev :
  recipients ⊆ recipients' →
  is_send_event cfg recipients ev → is_send_event cfg recipients' ev.
Proof.
  intros Hsub. destruct ev; simpl; try done.
  intros (Hf & to_addr & Ht & Hin). split; [done|].
  exists to_addr. split; [done|]. by apply Hsub.
Qed.

(** The loop as a whole. *)
Lemma send_loop_inv subject text_content html_content from_name len
    recipients idx results w r w' :
  send_loop cfg subject text_content html_content from_name len idx
    recipients results w = (r, w') →
  ∃ evs logs,
    events w' = events w ++ evs
    ∧ send_logged w' = send_logged w ++ logs
    ∧ Forall (is_send_event cfg recipients) evs
    ∧ ∀ final, r = Ok final →
        ∃ new,
          final = results ++ new
          ∧ Forall2 is_result_for recipients new
          ∧ (∀ to_addr, result_entry to_addr true [] ∈ new →
               ∃ text, EvSendmail (EMAIL_FROM cfg) [to_addr] text ∈ evs)
          ∧ (len = idx + length recipients →
               length (filter is_sleep evs) = length recipients - 1)%nat.
Proof.
  revert idx results w.
  induction recipients as [|to_addr recipients IH]; intros idx results w.
  - cbn [send_loop]. run_eff. intros [= <- <-].
    exists [], []. rewrite !app_nil_r. split; [done|]. split; [done|].
    split; [constructor|]. intros final [= <-]. exists [].
    rewrite app_nil_r. split; [done|]. split; [constructor|].
    split; [|done]. intros to_addr Hin. by apply elem_of_nil in Hin.
  - destruct (send_loop_cons subject text_content html_content from_name len
                idx to_addr recipients results w)
      as [[e E]|[(e & text & n & He & E)|(ok & err & evs1 & logs1 & n & Hstep)]].
    + rewrite E. intros [= <- <-]. exists [], []. rewrite !app_nil_r.
      split; [done|]. split; [done|]. split; [constructor|]. done.
    + rewrite E. intros [= <- <-]. eexists [_], []. cbn [events send_logged].
      rewrite app_nil_r. split; [done|]. split; [done|].
      split; [|done]. constructor; [|constructor]. simpl. split; [done|].
      exists to_addr. split; [done|]. by left.
    + cbv zeta in Hstep. destruct Hstep as (Hevs1 & Hok & Hfail & E).
      rewrite E. clear E. intros E.
      apply IH in E as (evs2 & logs2 & Hev & Hlog & Hall & Hres).
      remember (negb (Z.of_nat idx =? Z.of_nat len - 1)%Z) as last eqn:Hlast.
      symmetry in Hlast. unfold paused in Hev, Hlog.
      exists (evs1 ++ (if last then [EvSleep SEND_INTERVAL_SECONDS] else [])
                ++ evs2), (logs1 ++ logs2).
      split.
      { rewrite Hev. destruct last; cbn [events]; by rewrite <- ?app_assoc, ?app_nil_l. }
      split.
      { rewrite Hlog. destruct last; cbn [send_logged]; by rewrite <- ?app_assoc. }
      split.
      { apply Forall_app. split.
        - destruct Hevs1 as [->|[text ->]]; [constructor|].
          constructor; [|constructor]. simpl. split; [done|].
          exists to_addr. split; [done|]. by left.
        - apply Forall_app. split.
          + destruct last; constructor; [done|constructor].
          + eapply Forall_impl; [exact Hall|]. intros ev.
            apply is_send_event_mono. intros x Hx. by right. }
      intros final Hfinal.
      destruct (Hres final Hfinal) as (new & Hnew & Hf2 & Hsent & Hsleep).
      exists (result_entry to_addr ok err :: new).
      split; [by rewrite Hnew, <- app_assoc|].
      split.
      { constructor; [|done]. exists ok, err. split; [done|].
        split; [intros Ht; by apply Hok|done]. }
      split.
      { intros to' Hin. apply elem_of_cons in Hin as [Heq|Hin].
        - injection Heq as Hto Hok' _. subst to'. symmetry in Hok'.
          destruct (Hok Hok') as [_ Hne].
          destruct Hevs1 as [->|[text ->]]; [done|].
          exists text. apply elem_of_app. left. by left.
        - destruct (Hsent to' Hin) as [text Ht]. exists text.
          rewrite !elem_of_app. by right; right. }
      intros Hlen. cbn [length] in Hlen.
      rewrite !filter_app, !length_app.
      assert (length (filter is_sleep evs1) = 0)%nat as ->.
      { by destruct Hevs1 as [->|[text ->]]. }
      rewrite Hsleep by lia. cbn [length].
      destruct last; simpl.
      * apply negb_true_iff, Z.eqb_neq in Hlast.
        assert (length recipients ≠ 0)%nat by lia. lia.
      * apply negb_false_iff, Z.eqb_eq in Hlast.
        assert (length recipients = 0)%nat by lia. lia.
Qed.

(** The [finally] clause: [quit] is called, and an [Exception] it raises
    is dropped. *)
Lemma quit_run (w : MailWorld) :
  ∃ rq n,
    try_except (io EvQuit smtp_quit) (λ _, mret tt) w
    = (rq, mk_world (events w ++ [EvQuit]) (send_logged w) n)
    ∧ ∀ e, rq = Raise e → exn_is_Exception e = false.
Proof.
  run_eff. destruct (smtp_quit (net w)) as [[[]|e] n].
  - exists (Ok tt), n. by split.
  - destruct (exn_is_Exception e) eqn:He.
    + exists (Ok tt), n. by split.
    + exists (Raise e), n. split; [done|]. by intros ? [= <-].
Qed.

Lemma finally_quit_run {A} (body : Eff MailWorld A) w r w' :
  try_finally body (try_except (io EvQuit smtp_quit) (λ _, mret tt)) w = (r, w') →
  ∃ rb wb,
    body w = (rb, wb)
    ∧ events w' = events wb ++ [EvQuit]
    ∧ send_logged w' = send_logged wb
    ∧ (r = rb ∨ ∃ e, r = Raise e ∧ exn_is_Exception e = false).
Proof.
  unfold try_finally at 1. destruct (body w) as [rb wb].
  destruct (quit_run wb) as (rq & n & -> & Hq).
  destruct rq as [[]|e]; intros [= <- <-]; exists rb, wb.
  - split; [done|]. split; [done|]. split; [done|]. by left.
  - split; [done|]. split; [done|]. split; [done|]. right. by eauto.
Qed.

(** The body of the [try] statement: the handshake, then the loop. *)
Let session (subject text_content : str) (html_content : option str)
    (from_name : str) (recipients : list str) : Eff MailWorld (list pyval) :=
  io EvEhlo smtp_ehlo;;
  has_starttls ← reads (λ w, smtp_has_extn (U "STARTTLS") (net w));
  (if has_starttls : bool
   then io EvStartTLS smtp_starttls;; io EvEhlo smtp_ehlo
   else mret tt);;
  io (EvLogin (EMAIL_FROM cfg) (EMAIL_PASSWORD cfg))
    (smtp_login (EMAIL_FROM cfg) (EMAIL_PASSWORD cfg));;
  send_loop cfg subject text_content html_content from_name
    (length recipients) 0 recipients [].

(** A session makes the calls of a handshake, as far as they succeed,
    and after a complete handshake those of the loop. *)
Lemma session_run subject text_content html_content from_name recipients w r w' :
  session subject text_content html_content from_name recipients w = (r, w') →
  ∃ tls pre post logs,
    events w' = events w ++ pre ++ post
    ∧ send_logged w' = send_logged w ++ logs
    ∧ pre ≠ []
    ∧ pre `prefix_of` handshake cfg tls
    ∧ (∀ n, smtp_ehlo (net w) = (Ok tt, n) →
            tls = smtp_has_extn (U "STARTTLS") n)
    ∧ (pre = handshake cfg tls ∨ post = [] ∧ ∃ e, r = Raise e)
    ∧ Forall (is_send_event cfg recipients) post
    ∧ ∀ final, r = Ok final →
        Forall2 is_result_for recipients final
        ∧ (∀ to_addr, result_entry to_addr true [] ∈ final →
             ∃ text, EvSendmail (EMAIL_FROM cfg) [to_addr] text ∈ post)
        ∧ length (filter is_sleep post) = (length recipients - 1)%nat.
Proof.
  unfold session. run_eff.
  set (login_ev := EvLogin (EMAIL_FROM cfg) (EMAIL_PASSWORD cfg)).
  assert (∀ w1 : MailWorld,
    (let (r0, s') :=
       let '(r0, n) := smtp_login (EMAIL_FROM cfg) (EMAIL_PASSWORD cfg) (net w1) in
       (r0, mk_world (events w1 ++ [login_ev]) (send_logged w1) n) in
     match r0 with
     | Ok _ =>
         send_loop cfg subject text_content html_content from_name
           (length recipients) 0 recipients [] s'
     | Raise e => (Raise e, s')
     end) = (r, w') →
    ∃ post logs,
      events w' = events w1 ++ [login_ev] ++ post
      ∧ send_logged w' = send_logged w1 ++ logs
      ∧ Forall (is_send_event cfg recipients) post
      ∧ ∀ final, r = Ok final →
          Forall2 is_result_for recipients final
          ∧ (∀ to_addr, result_entry to_addr true [] ∈ final →
               ∃ text, EvSendmail (EMAIL_FROM cfg) [to_addr] text ∈ post)
          ∧ length (filter is_sleep post) = (length recipients - 1)%nat)
    as Hlogin.
  { intros w1.
    destruct (smtp_login _ _ _) as [[[]|e] n].
    - intros E. apply send_loop_inv in E as (evs & logs & Hev & Hlog & Hall & Hres).
      cbn [events send_logged] in Hev, Hlog.
      exists evs, logs. rewrite Hev, Hlog, <- app_assoc.
      split; [done|]. split; [done|]. split; [done|].
      intros final Hfinal.
      destruct (Hres final Hfinal) as (new & -> & Hf2 & Hsent & Hsleep).
      split; [done|]. split; [done|]. by apply Hsleep.
    - intros [= <- <-]. exists [], []. cbn [events send_logged].
      rewrite !app_nil_r. split; [done|]. split; [done|].
      split; [constructor|]. done. }
  destruct (smtp_ehlo (net w)) as [[[]|e] n1] eqn:Eehlo;
    cbn [events send_logged net].
  2:{ intros [= <- <-]. exists false, [EvEhlo], [], [].
      cbn [events send_logged]. rewrite !app_nil_r.
      split; [done|]. split; [done|]. split; [done|].
      split; [by eexists [_]|]. split; [done|].
      split; [right; by eauto|]. split; [constructor|]. done. }
  destruct (smtp_has_extn (U "STARTTLS") n1) eqn:Etls;
    cbn [events send_logged net].
  - destruct (smtp_starttls n1) as [[[]|e] n2]; cbn [events send_logged net].
    2:{ intros [= <- <-]. exists true, [EvEhlo; EvStartTLS], [], [].
        cbn [events send_logged]. rewrite !app_nil_r, <- app_assoc.
        split; [done|]. split; [done|]. split; [done|].
        split; [by eexists [_; _]|].
        split; [by intros n [= <-]|].
        split; [right; by eauto|]. split; [constructor|]. done. }
    destruct (smtp_ehlo n2) as [[[]|e] n3]; cbn [events send_logged net].
    2:{ intros [= <- <-]. exists true, [EvEhlo; EvStartTLS; EvEhlo], [], [].
        cbn [events send_logged]. rewrite !app_nil_r, <- !app_assoc.
        split; [done|]. split; [done|]. split; [done|].
        split; [by eexists [_]|].
        split; [by intros n [= <-]|].
        split; [right; by eauto|]. split; [constructor|]. done. }
    intros E.
    apply (Hlogin
             (mk_world (((events w ++ [EvEhlo]) ++ [EvStartTLS]) ++ [EvEhlo])
                (send_logged w) n3)) in E
      as (post & logs & Hev & Hlog & Hall & Hres).
    cbn [events send_logged] in Hev, Hlog.
    exists true, (handshake cfg true), post, logs.
    rewrite Hev, Hlog, <- !app_assoc.
    split; [done|]. split; [done|]. split; [done|]. split; [done|].
    split; [by intros n [= <-]|]. split; [by left|]. done.
  - intros E.
    apply (Hlogin (mk_world (events w ++ [EvEhlo]) (send_logged w) n1)) in E
      as (post & logs & Hev & Hlog & Hall & Hres).
    cbn [events send_logged] in Hev, Hlog.
    exists false, (handshake cfg false), post, logs.
    rewrite Hev, Hlog, <- !app_assoc.
    split; [done|]. split; [done|]. split; [done|]. split; [done|].
    split; [by intros n [= <-]|]. split; [by left|]. done.
Qed.

Lemma send_email_to_recipients_unfold subject text_content html_content
    from_name recipients :
  send_email_to_recipients cfg subject text_content html_content from_name
    recipients
  = (io (EvSMTP SMTP_HOST SMTP_PORT 30) (smtp_connect SMTP_HOST SMTP_PORT 30);;
     try_finally
       (session subject text_content html_content from_name recipients)
       (try_except (io EvQuit smtp_quit) (λ _, mret tt))).
Proof. reflexivity. Qed.

(** The function as a whole: the connection fails and nothing else
    happens, or a session runs and [quit] is called after it. *)
Lemma send_run subject text_content html_content from_name recipients w r w' :
  send_email_to_recipients cfg subject text_content html_content from_name
    recipients w = (r, w') →
  (∃ e n,
     smtp_connect SMTP_HOST SMTP_PORT 30 (net w) = (Raise e, n)
     ∧ r = Raise e
     ∧ w' = mk_world (events w ++ [EvSMTP SMTP_HOST SMTP_PORT 30])
              (send_logged w) n)
  ∨ (∃ n tls pre post logs,
       smtp_connect SMTP_HOST SMTP_PORT 30 (net w) = (Ok tt, n)
       ∧ events w'
         = events w ++ [EvSMTP SMTP_HOST SMTP_PORT 30] ++ pre ++ post ++ [EvQuit]
       ∧ send_logged w' = send_logged w ++ logs
       ∧ pre ≠ []
       ∧ pre `prefix_of` handshake cfg tls
       ∧ (pre = handshake cfg tls ∨ post = [] ∧ ∃ e, r = Raise e)
       ∧ Forall (is_send_event cfg recipients) post
       ∧ ∀ final, r = Ok final →
           Forall2 is_result_for recipients final
           ∧ (∀ to_addr, result_entry to_addr true [] ∈ final →
                ∃ text, EvSendmail (EMAIL_FROM cfg) [to_addr] text ∈ post)
           ∧ length (filter is_sleep post) = (length recipients - 1)%nat).
Proof.
  rewrite send_email_to_recipients_unfold.
  unfold mbind at 1, Eff_bind at 1, io at 1.
  destruct (smtp_connect _ _ _ _) as [[[]|e] n] eqn:Econn.
  - intros E. right.
    apply finally_quit_run in E as (rb & wb & Es & Hev & Hlog & Hr).
    apply session_run in Es
      as (tls & pre & post & logs & Hev' & Hlog' & Hne & Hpre & _ & Hfull
          & Hall & Hres).
    cbn [events send_logged] in Hev', Hlog'.
    exists n, tls, pre, post, logs. split; [done|].
    split; [by rewrite Hev, Hev', <- !app_assoc|].
    split; [by rewrite Hlog, Hlog'|]. split; [done|]. split; [done|].
    split.
    { destruct Hfull as [?|[? [e Hrb]]]; [by left|]. right. split; [done|].
      destruct Hr as [->|[e' [-> _]]]; by eauto. }
    split; [done|]. intros final ->.
    destruct Hr as [<-|[e' [? _]]]; [|done]. by apply Hres.
  - intros [= <- <-]. left. by eauto.
Qed.

(** X7.  When [send_email_to_recipients] returns, its result has one
    entry for each recipient, in the order of the recipients: the
    recipient, a success flag, and an error text that is empty on
    success and the [repr] of an exception of class [Exception] on
    failure.  A recipient is reported as a success only if [sendmail]
    was called for that recipient alone, from the configured address. *)
Theorem send_email_results subject text_content html_content from_name
    recipients w results w' :
  send_email_to_recipients cfg subject text_content html_content from_name
    recipients w = (Ok results, w') →
  Forall2 is_result_for recipients results
  ∧ ∃ evs,
      events w' = events w ++ evs
      ∧ ∀ to_addr, result_entry to_addr true [] ∈ results →
          ∃ text, EvSendmail (EMAIL_FROM cfg) [to_addr] text ∈ evs.
Proof.
  intros E. apply send_run in E
    as [(e & n & _ & ? & _)
       |(n & tls & pre & post & logs & _ & Hev & _ & _ & _ & _ & _ & Hres)];
    [done|].
  destruct (Hres results eq_refl) as (Hf2 & Hsent & _).
  split; [done|]. eexists. split; [exact Hev|].
  intros to_addr Hin. destruct (Hsent to_addr Hin) as [text Ht].
  exists text. rewrite !elem_of_app. by right; right; left.
Qed.

(** The loop, when it returns, has made one attempt for each
    recipient, in order, and paused after each but the last. *)
Lemma send_loop_trace subject text_content html_content from_name len
    recipients idx results w final w' :
  send_loop cfg subject text_content html_content from_name len idx
    recipients results w = (Ok final, w') →
  len = (idx + length recipients)%nat →
  ∃ attempts,
    Forall2 (is_attempt cfg) recipients attempts
    ∧ events w' = events w ++ with_pauses attempts.
Proof.
  revert idx results w.
  induction recipients as [|to_addr recipients IH]; intros idx results w.
  - cbn [send_loop]. run_eff. intros [= _ <-] _. exists [].
    split; [constructor|]. by rewrite app_nil_r.
  - destruct (send_loop_cons subject text_content html_content from_name len
                idx to_addr recipients results w)
      as [[e E]|[(e & text & n & _ & E)|(ok & err & evs & logs & n & Hstep)]];
      [by rewrite E..|].
    cbv zeta in Hstep. destruct Hstep as (Hevs & _ & _ & E).
    rewrite E. clear E. intros E Hlen. cbn [length] in Hlen.
    apply IH in E as (attempts & Hatt & Hev); [|lia].
    exists (evs :: attempts). split; [by constructor|].
    rewrite Hev. cbn [with_pauses].
    destruct Hatt as [|to' attempt recipients attempts Hhead Hrest].
    + assert (negb (Z.of_nat idx =? Z.of_nat len - 1)%Z = false) as ->.
      { apply negb_false_iff, Z.eqb_eq. cbn [length] in Hlen. lia. }
      cbn [events with_pauses]. by rewrite !app_nil_r.
    + assert (negb (Z.of_nat idx =? Z.of_nat len - 1)%Z = true) as ->.
      { apply negb_true_iff, Z.eqb_neq. cbn [length] in Hlen. lia. }
      unfold paused. cbn [events]. by rewrite <- !app_assoc.
Qed.

(** A session that returns has made the whole handshake before the
    loop. *)
Lemma session_returns subject text_content html_content from_name recipients
    w final w' :
  session subject text_content html_content from_name recipients w
  = (Ok final, w') →
  ∃ tls w0,
    events w0 = events w ++ handshake cfg tls
    ∧ send_loop cfg subject text_content html_content from_name
        (length recipients) 0 recipients [] w0 = (Ok final, w').
Proof.
  unfold session. run_eff.
  destruct (smtp_ehlo (net w)) as [[[]|e] n1]; cbn [events send_logged net];
    [|done].
  destruct (smtp_has_extn (U "STARTTLS") n1); cbn [events send_logged net].
  - destruct (smtp_starttls n1) as [[[]|e] n2]; cbn [events send_logged net];
      [|done].
    destruct (smtp_ehlo n2) as [[[]|e] n3]; cbn [events send_logged net];
      [|done].
    destruct (smtp_login _ _ n3) as [[[]|e] n4]; [|done].
    intros E. exists true. eexists. split; [|exact E].
    cbn [events handshake]. by rewrite <- !app_assoc.
  - destruct (smtp_login _ _ n1) as [[[]|e] n4]; [|done].
    intros E. exists false. eexists. split; [|exact E].
    cbn [events handshake]. by rewrite <- !app_assoc.
Qed.

Lemma with_pauses_sleeps recipients attempts :
  Forall2 (is_attempt cfg) recipients attempts →
  filter is_sleep (with_pauses attempts)
  = replicate (length recipients - 1) (EvSleep SEND_INTERVAL_SECONDS).
Proof.
  induction 1 as [|to_addr attempt recipients attempts Hhead Hrest IH];
    [done|].
  cbn [with_pauses length]. rewrite filter_app.
  assert (filter is_sleep attempt = []) as ->
    by (by destruct Hhead as [->|[text ->]]).
  destruct Hrest as [|to' attempt' recipients attempts Hhead' Hrest']; [done|].
  rewrite filter_cons. destruct (decide _) as [_|Hno]; [|by destruct Hno].
  rewrite IH. cbn [length app Nat.sub replicate]. by rewrite Nat.sub_0_r.
Qed.

(** X8.  When [send_email_to_recipients] returns, what it did after
    the login is, for each recipient in order, one attempt (at most
    one call of [sendmail], for that recipient alone) followed by one
    pause of [SEND_INTERVAL_SECONDS], except that no pause follows the
    attempt for the last recipient; then [quit].  So for [n]
    recipients there are [n - 1] pauses, and none for an empty list. *)
Theorem send_email_pauses subject text_content html_content from_name
    recipients w results w' :
  send_email_to_recipients cfg subject text_content html_content from_name
    recipients w = (Ok results, w') →
  ∃ tls attempts,
    Forall2 (is_attempt cfg) recipients attempts
    ∧ events w'
      = events w ++ [EvSMTP SMTP_HOST SMTP_PORT 30] ++ handshake cfg tls
          ++ with_pauses attempts ++ [EvQuit]
    ∧ filter is_sleep (with_pauses attempts)
      = replicate (length recipients - 1) (EvSleep SEND_INTERVAL_SECONDS).
Proof.
  rewrite send_email_to_recipients_unfold.
  unfold mbind at 1, Eff_bind at 1, io at 1.
  destruct (smtp_connect _ _ _ _) as [[[]|e] n]; [|done].
  intros E. apply finally_quit_run in E as (rb & wb & Es & Hev & _ & Hr).
  destruct Hr as [<-|[e [? _]]]; [|done].
  apply session_returns in Es as (tls & w0 & Hev0 & Eloop).
  apply send_loop_trace in Eloop as (attempts & Hatt & Hev1); [|done].
  exists tls, attempts. split; [done|]. split.
  - rewrite Hev, Hev1, Hev0. cbn [events]. by rewrite <- !app_assoc.
  - by apply with_pauses_sleeps.
Qed.

(** X9.  Once the connection is open, [quit] is called exactly once,
    as the last call, however the function ends: after a successful
    run, after a failed handshake or login, and after an exception
    that leaves the loop.  When the connection cannot be opened, the
    exception goes to the caller and nothing else is called. *)
Theorem send_email_quits subject text_content html_content from_name
    recipients w r w' :
  send_email_to_recipients cfg subject text_content html_content from_name
    recipients w = (r, w') →
  match smtp_connect SMTP_HOST SMTP_PORT 30 (net w) with
  | (Ok _, _) =>
      ∃ evs,
        events w' = events w ++ [EvSMTP SMTP_HOST SMTP_PORT 30] ++ evs ++ [EvQuit]
        ∧ (EvQuit ∉ evs)
        ∧ (EvSMTP SMTP_HOST SMTP_PORT 30 ∉ evs)
  | (Raise e, _) =>
      r = Raise e
      ∧ events w' = events w ++ [EvSMTP SMTP_HOST SMTP_PORT 30]
      ∧ send_logged w' = send_logged w
  end.
Proof.
  intros E. apply send_run in E
    as [(e & n & -> & -> & ->)
       |(n & tls & pre & post & logs & -> & Hev & _ & _ & Hpre & _ & Hall & _)];
    [done|].
  exists (pre ++ post). split; [by rewrite Hev, <- !app_assoc|].
  assert (∀ ev, ev ∈ pre ++ post →
            ev ≠ EvQuit ∧ ev ≠ EvSMTP SMTP_HOST SMTP_PORT 30) as Hno.
  { intros ev [Hin|Hin]%elem_of_app.
    - destruct Hpre as [k Hk].
      assert (ev ∈ handshake cfg tls) as Hh
        by (rewrite Hk; apply elem_of_app; by left).
      destruct tls; cbn in Hh;
        repeat (apply elem_of_cons in Hh as [->|Hh]; [done|]);
        by apply elem_of_nil in Hh.
    - rewrite Forall_forall in Hall. specialize (Hall ev Hin).
      by destruct ev. }
  split; intros Hin; by destruct (Hno _ Hin).
Qed.

(** X10.  Whatever happens, every message handed to [sendmail] goes
    from the configured address to exactly one address, which is one
    of the recipients, and is handed over only after the login with
    the configured credentials. *)
Theorem send_email_only_to_recipients subject text_content html_content
    from_name recipients w r w' :
  send_email_to_recipients cfg subject text_content html_content from_name
    recipients w = (r, w') →
  ∃ evs,
    events w' = events w ++ evs
    ∧ ∀ before from_addr to_addrs text after,
        evs = before ++ EvSendmail from_addr to_addrs text :: after →
        from_addr = EMAIL_FROM cfg
        ∧ (∃ to_addr, to_addrs = [to_addr] ∧ to_addr ∈ recipients)
        ∧ EvLogin (EMAIL_FROM cfg) (EMAIL_PASSWORD cfg) ∈ before.
Proof.
  intros E. apply send_run in E
    as [(e & n & _ & _ & ->)
       |(n & tls & pre & post & logs & _ & Hev & _ & _ & Hpre & Hfull & Hall & _)].
  - eexists. split; [reflexivity|]. intros before f tos text after Heq.
    destruct before as [|? [|? ?]]; discriminate.
  - eexists. split; [exact Hev|]. intros before f tos text after Heq.
    assert (∀ ev, ev ∈ pre → ev ∈ handshake cfg tls) as Hin_pre.
    { intros ev Hin. destruct Hpre as [k ->]. apply elem_of_app. by left. }
    assert (∀ ev, ev ∈ handshake cfg tls → is_sleep ev = false
              ∧ ∀ a b c, ev ≠ EvSendmail a b c) as Hhs.
    { intros ev Hin. destruct tls; cbn in Hin;
        repeat (apply elem_of_cons in Hin as [->|Hin]; [done|]);
        by apply elem_of_nil in Hin. }
    assert (EvSendmail f tos text ∈ post) as Hpost.
    { assert (EvSendmail f tos text
              ∈ [EvSMTP SMTP_HOST SMTP_PORT 30] ++ pre ++ post ++ [EvQuit]) as Hin
        by (rewrite Heq; apply elem_of_app; right; by left).
      rewrite !elem_of_app in Hin.
      destruct Hin as [Hin|[Hin|[Hin|Hin]]]; [| |done|].
      - apply list_elem_of_singleton in Hin. discriminate.
      - by destruct (Hhs _ (Hin_pre _ Hin)) as [_ Hx], (Hx f tos text).
      - apply list_elem_of_singleton in Hin. discriminate. }
    rewrite Forall_forall in Hall. destruct (Hall _ Hpost) as [-> Hto].
    split; [done|]. split; [done|].
    destruct Hfull as [->|[-> _]]; [|by apply elem_of_nil in Hpost].
    (* the login is the last call of the handshake, which lies before
       every call of the loop *)
    set (login_ev := EvLogin (EMAIL_FROM cfg) (EMAIL_PASSWORD cfg)) in *.
    assert (∃ hs, EvSMTP SMTP_HOST SMTP_PORT 30 :: handshake cfg tls
                  = hs ++ [login_ev]
                  ∧ ∀ ev, ev ∈ hs → ∀ a b c, ev ≠ EvSendmail a b c)
      as (hs & Hhs_eq & Hhs_no).
    { destruct tls; [exists [EvSMTP SMTP_HOST SMTP_PORT 30; EvEhlo; EvStartTLS; EvEhlo]
                    |exists [EvSMTP SMTP_HOST SMTP_PORT 30; EvEhlo]];
        (split; [done|]); intros ev Hin;
        repeat (apply elem_of_cons in Hin as [->|Hin]; [done|]);
        by apply elem_of_nil in Hin. }
    change ([EvSMTP SMTP_HOST SMTP_PORT 30] ++ handshake cfg tls ++ post ++ [EvQuit])
      with ((EvSMTP SMTP_HOST SMTP_PORT 30 :: handshake cfg tls) ++ post ++ [EvQuit])
      in Heq.
    rewrite Hhs_eq, <- app_assoc in Heq. cbn [app] in Heq.
    clear -Heq Hhs_no. revert before Heq.
    induction hs as [|ev hs IH]; intros before Heq.
    + destruct before as [|b before]; [discriminate|].
      injection Heq as <- _. by left.
    + destruct before as [|b before].
      * injection Heq as E _. exfalso.
        eapply (Hhs_no ev); [by left|exact E].
      * injection Heq as <- Heq. right. apply IH; [|done].
        intros ev' Hin. apply Hhs_no. by right.
Qed.

(** X11.  When the server does not advertise STARTTLS, the login is
    made all the same, on the connection as it is: the credentials
    follow the first [ehlo] directly, and [starttls] is never called. *)
Theorem send_email_login_without_tls subject text_content html_content
    from_name recipients w r w' n1 n2 :
  send_email_to_recipients cfg subject text_content html_content from_name
    recipients w = (r, w') →
  smtp_connect SMTP_HOST SMTP_PORT 30 (net w) = (Ok tt, n1) →
  smtp_ehlo n1 = (Ok tt, n2) →
  smtp_has_extn (U "STARTTLS") n2 = false →
  ∃ evs,
    events w'
    = events w
      ++ [EvSMTP SMTP_HOST SMTP_PORT 30; EvEhlo;
          EvLogin (EMAIL_FROM cfg) (EMAIL_PASSWORD cfg)]
      ++ evs
    ∧ EvStartTLS ∉ evs.
Proof.
  intros E Hconn Hehlo Htls.
  rewrite send_email_to_recipients_unfold in E.
  unfold mbind at 1, Eff_bind at 1, io at 1 in E. rewrite Hconn in E.
  apply finally_quit_run in E as (rb & wb & Es & Hev & _ & _).
  revert Es. unfold session. run_eff. rewrite Hehlo.
  cbn [events send_logged net]. rewrite Htls.
  cbn [events send_logged net].
  destruct (smtp_login _ _ _) as [[[]|e] n3]; intros Es.
  - apply send_loop_inv in Es as (evs & logs & Hev' & _ & Hall & _).
    cbn [events] in Hev'. exists (evs ++ [EvQuit]).
    split; [by rewrite Hev, Hev', <- !app_assoc|].
    intros [Hin|Hin]%elem_of_app.
    + rewrite Forall_forall in Hall. by apply Hall in Hin.
    + by apply list_elem_of_singleton in Hin.
  - injection Es as <- <-. cbn [events] in Hev. exists [EvQuit].
    split; [by rewrite Hev, <- !app_assoc|].
    intros Hin. by apply list_elem_of_singleton in Hin.
Qed.

(** X12.  When the server advertises STARTTLS and the upgrade fails,
    the function raises without logging in: after [starttls] only
    [quit] is called, and the credentials are not sent. *)
Theorem send_email_no_login_after_failed_starttls subject text_content
    html_content from_name recipients w r w' n1 n2 n3 e :
  send_email_to_recipients cfg subject text_content html_content from_name
    recipients w = (r, w') →
  smtp_connect SMTP_HOST SMTP_PORT 30 (net w) = (Ok tt, n1) →
  smtp_ehlo n1 = (Ok tt, n2) →
  smtp_has_extn (U "STARTTLS") n2 = true →
  smtp_starttls n2 = (Raise e, n3) →
  events w'
  = events w ++ [EvSMTP SMTP_HOST SMTP_PORT 30; EvEhlo; EvStartTLS; EvQuit]
  ∧ send_logged w' = send_logged w
  ∧ ∃ e', r = Raise e'.
Proof.
  intros E Hconn Hehlo Htls Hstart.
  rewrite send_email_to_recipients_unfold in E.
  unfold mbind at 1, Eff_bind at 1, io at 1 in E. rewrite Hconn in E.
  apply finally_quit_run in E as (rb & wb & Es & Hev & Hlog & Hr).
  revert Es. unfold session. run_eff. rewrite Hehlo.
  cbn [events send_logged net]. rewrite Htls.
  cbn [events send_logged net]. rewrite Hstart.
  intros [= <- <-]. cbn [events send_logged] in Hev, Hlog.
  split; [by rewrite Hev, <- !app_assoc|]. split; [done|].
  destruct Hr as [->|[e' [-> _]]]; by eauto.
Qed.

Lemma send_loop_total subject text_content html_content from_name len
    recipients idx results w :
  only_deliveries_fail cfg →
  ∃ final w',
    send_loop cfg subject text_content html_content from_name len idx
      recipients results w = (Ok final, w').
Proof.
  intros (_ & _ & _ & _ & _ & Hsend & Hfmt & Hhdr & Hmime & Hstr).
  revert idx results w.
  induction recipients as [|to_addr recipients IH]; intros idx results w.
  - cbn [send_loop]. run_eff. by eauto.
  - cbn [send_loop]. run_eff.
    destruct (Hfmt from_name (EMAIL_FROM cfg)) as [from_header ->].
    destruct (Hhdr subject (U "utf-8")) as [subject_header ->].
    destruct (py_not text_content);
      [|destruct (Hmime text_content (U "plain") (U "utf-8")) as [text_part ->]].
    all: destruct html_content as [html|];
      [destruct (py_not html);
       [|destruct (Hmime html (U "html") (U "utf-8")) as [html_part ->]]|].
    all: destruct (as_string _) as [text|e] eqn:Estr;
      [destruct (smtp_sendmail _ _ _ _) as [[[]|e] n] eqn:Esend;
       [|rewrite (Hsend to_addr text (net w) e) by by rewrite Esend]
      |rewrite (Hstr _ e Estr)].
    all: cbn [fst snd]; destruct (negb _); apply IH.
Qed.

(** X13.  On a platform where nothing fails but deliveries, the
    function returns for every list of recipients: a recipient that the
    server refuses, or whose message cannot be written out, costs that
    recipient its delivery and nothing else. *)
Theorem send_email_returns subject text_content html_content from_name
    recipients w :
  only_deliveries_fail cfg →
  ∃ results w',
    send_email_to_recipients cfg subject text_content html_content from_name
      recipients w = (Ok results, w')
    ∧ Forall2 is_result_for recipients results.
Proof.
  intros Hcoop.
  destruct (send_email_to_recipients cfg subject text_content html_content
              from_name recipients w) as [r w'] eqn:E.
  assert (∃ results, r = Ok results) as [results ->].
  { pose proof Hcoop as (Hconn & Hehlo & Htls & Hlogin & Hquit & _).
    rewrite send_email_to_recipients_unfold in E.
    unfold mbind at 1, Eff_bind at 1, io at 1 in E.
    specialize (Hconn (net w)).
    destruct (smtp_connect _ _ _ _) as [rc n1]. cbn [fst] in Hconn. subst rc.
    unfold try_finally in E.
    destruct (session _ _ _ _ _ _) as [rb wb] eqn:Es.
    assert (∃ results, rb = Ok results) as [results ->].
    { revert Es. unfold session. run_eff.
      pose proof (Hehlo n1) as H1.
      destruct (smtp_ehlo n1) as [r1 n2]. cbn [fst] in H1. subst r1.
      cbn [events send_logged net].
      destruct (smtp_has_extn _ n2); cbn [events send_logged net].
      - pose proof (Htls n2) as H2.
        destruct (smtp_starttls n2) as [r2 n3]. cbn [fst] in H2. subst r2.
        cbn [events send_logged net].
        pose proof (Hehlo n3) as H3.
        destruct (smtp_ehlo n3) as [r3 n4]. cbn [fst] in H3. subst r3.
        cbn [events send_logged net].
        pose proof (Hlogin n4) as H4.
        destruct (smtp_login _ _ n4) as [r4 n5]. cbn [fst] in H4. subst r4.
        match goal with
        | |- send_loop _ _ _ _ _ _ _ _ _ ?w0 = _ → _ =>
            destruct (send_loop_total subject text_content html_content
                        from_name (length recipients) recipients 0 [] w0 Hcoop)
              as (final & w2 & ->)
        end.
        intros [= <- _]. by eauto.
      - pose proof (Hlogin n2) as H4.
        destruct (smtp_login _ _ n2) as [r4 n5]. cbn [fst] in H4. subst r4.
        match goal with
        | |- send_loop _ _ _ _ _ _ _ _ _ ?w0 = _ → _ =>
            destruct (send_loop_total subject text_content html_content
                        from_name (length recipients) recipients 0 [] w0 Hcoop)
              as (final & w2 & ->)
        end.
        intros [= <- _]. by eauto. }
    destruct (quit_run wb) as (rq & nq & Eq & Hq). rewrite Eq in E.
    destruct rq as [[]|e].
    - injection E as <- _. by eauto.
    - exfalso. specialize (Hq e eq_refl).
      revert Eq. run_eff. specialize (Hquit (net wb) e).
      destruct (smtp_quit (net wb)) as [[[]|e'] n']; [done|].
      destruct (exn_is_Exception e') eqn:He'; [done|].
      intros [= -> _]. cbn [fst] in Hquit. by rewrite Hquit in He'. }
  exists results, w'. split; [done|].
  apply send_run in E
    as [(e & n & _ & ? & _)
       |(n & tls & pre & post & logs & _ & _ & _ & _ & _ & _ & _ & Hres)];
    [done|].
  by destruct (Hres results eq_refl) as [? _].
Qed.

End SendFacts.

(** X7 on the run with three recipients: the refused one is reported
    as failed, between two successes. *)
Lemma send_email_results_witness :
  Forall2 is_result_for test_recipients
    [result_entry (U "a@x.org") true [];
     result_entry (U "bad@example.com") false (repr_exn SMTPRecipientsRefused);
     result_entry (U "c@x.org") true []].
Proof.
  apply (send_email_results (P := good_platform) test_config
           (U "subject") (U "text") None (U "Me") test_recipients
           (test_world true true test_net) _
           (test_send true true test_net).2).
  reflexivity.
Defined.

(** X8 on the same run: two pauses for three recipients. *)
Lemma send_email_pauses_witness :
  ∃ tls attempts,
    Forall2 (is_attempt test_config) test_recipients attempts
    ∧ events (test_send true true test_net).2
      = [] ++ [EvSMTP SMTP_HOST SMTP_PORT 30] ++ handshake test_config tls
          ++ with_pauses attempts ++ [EvQuit]
    ∧ filter is_sleep (with_pauses attempts) = [EvSleep 1; EvSleep 1].
Proof.
  apply (send_email_pauses (P := good_platform) test_config
           (U "subject") (U "text") None (U "Me") test_recipients
           (test_world true true test_net)
           [result_entry (U "a@x.org") true [];
            result_entry (U "bad@example.com") false
              (repr_exn SMTPRecipientsRefused);
            result_entry (U "c@x.org") true []]).
  reflexivity.
Defined.

(** X9 on a server that cannot be reached. *)
Lemma send_email_quits_witness :
  (test_send false true test_net).1 = Raise ConnectionRefusedError
  ∧ events (test_send false true test_net).2 = [EvSMTP SMTP_HOST SMTP_PORT 30]
  ∧ send_logged (test_send false true test_net).2 = [].
Proof.
  apply (send_email_quits (P := test_platform false true) test_config
           (U "subject") (U "text") None (U "Me") test_recipients
           (test_world false true test_net)).
  apply surjective_pairing.
Defined.

(** X10 on the run with three recipients. *)
Lemma send_email_only_to_recipients_witness :
  ∃ evs,
    events (test_send true true test_net).2 = [] ++ evs
    ∧ ∀ before from_addr to_addrs text after,
        evs = before ++ EvSendmail from_addr to_addrs text :: after →
        from_addr = U "me@qq.com"
        ∧ (∃ to_addr, to_addrs = [to_addr] ∧ to_addr ∈ test_recipients)
        ∧ EvLogin (U "me@qq.com") (U "secret") ∈ before.
Proof.
  apply (send_email_only_to_recipients (P := good_platform) test_config
           (U "subject") (U "text") None (U "Me") test_recipients
           (test_world true true test_net) (test_send true true test_net).1).
  apply surjective_pairing.
Defined.

(** X11 on a server that does not advertise STARTTLS. *)
Lemma send_email_login_without_tls_witness :
  ∃ evs,
    events (test_send true true plain_net).2
    = [] ++ [EvSMTP SMTP_HOST SMTP_PORT 30; EvEhlo;
             EvLogin (U "me@qq.com") (U "secret")] ++ evs
    ∧ EvStartTLS ∉ evs.
Proof.
  apply (send_email_login_without_tls (P := good_platform) test_config
           (U "subject") (U "text") None (U "Me") test_recipients
           (test_world true true plain_net) (test_send true true plain_net).1
           _ plain_net plain_net);
    [apply surjective_pairing|reflexivity..].
Defined.

(** X12 on a server whose upgrade to TLS fails. *)
Lemma send_email_no_login_after_failed_starttls_witness :
  events (test_send true false test_net).2
  = [] ++ [EvSMTP SMTP_HOST SMTP_PORT 30; EvEhlo; EvStartTLS; EvQuit]
  ∧ send_logged (test_send true false test_net).2 = []
  ∧ ∃ e', (test_send true false test_net).1 = Raise e'.
Proof.
  apply (send_email_no_login_after_failed_starttls
           (P := test_platform true false) test_config
           (U "subject") (U "text") None (U "Me") test_recipients
           (test_world true false test_net) (test_send true false test_net).1
           _ test_net test_net test_net
           (SMTPException (U "'STARTTLS extension not supported'")));
    [apply surjective_pairing|reflexivity..].
Defined.

Lemma good_platform_only_deliveries_fail :
  only_deliveries_fail (P := good_platform) test_config.
Proof.
  repeat split; try done.
  - intros to_addr text n e. cbn.
    destruct (bool_decide _ || false); [|done]. by intros [= <-].
  - intros name addr. by eexists.
  - intros text charset. by eexists.
  - intros text subtype charset. by eexists.
Qed.

(** X13 on the platform where only deliveries fail. *)
Lemma send_email_returns_witness :
  ∃ results w',
    test_send true true test_net = (Ok results, w')
    ∧ Forall2 is_result_for test_recipients results.
Proof.
  apply (send_email_returns (P := good_platform) test_config
           (U "subject") (U "text") None (U "Me") test_recipients
           (test_world true true test_net)).
  apply good_platform_only_deliveries_fail.
Defined.

(** * The handlers *)

Section HandlerFacts.
Context {CM : CaseMapping} {P : Platform} {PR : PyRepr MailWorld}.
Variable cfg : Config.
Variable ill_typed_send : pyval → pyval → pyval → pyval → pyval → Eff MailWorld pyval.

(** X14.  When the ping exits with a status other than zero,
    [device_health] returns a dictionary whose [ok] field is the string
    ["False"], not the boolean, with [ping] set to ["failed"] and the
    output of the process; the only call to the outside is the ping:
    no mail server is contacted and nothing is logged. *)
Theorem device_health_ping_failed args w result n :
  let argv := [U "ping"; U "-c"; U "1"; U "-W"; U "1"; U "10.66.66.2"] in
  subprocess_run argv (net w) = (Ok result, n) →
  returncode result ≠ 0%Z →
  device_health cfg args w
  = (Ok (VDict [
       (U "ok", VStr (U "False"));
       (U "ping", VStr (U "failed"));
       (U "stdout", VStr (stdout result));
       (U "stderr", VStr (stderr result))]),
     mk_world (events w ++ [EvRun argv]) (send_logged w) n).
Proof.
  intros argv Hrun Hcode. unfold device_health. run_eff.
  fold argv. rewrite Hrun.
  by destruct (Z.eqb_spec (returncode result) 0).
Qed.

(** [device_health] and [check_campus_ip] end in a dictionary with an
    [ok] field, or in an exception that is not of class [Exception]. *)
Lemma device_health_catches args w :
  ∃ r w',
    device_health cfg args w = (r, w')
    ∧ match r with
      | Ok v => ∃ items ok, v = VDict items ∧ assoc (U "ok") items = Some ok
      | Raise e => exn_is_Exception e = false
      end.
Proof.
  unfold device_health, now_ts. run_eff.
  destruct (subprocess_run _ _) as [[result|e] n].
  - destruct (returncode result =? 0)%Z.
    + destruct (send_email_to_recipients _ _ _ _ _ _ _) as [[results|e] w'].
      * do 2 eexists. split; [done|]. do 2 eexists. by split.
      * destruct (exn_is_Exception e) eqn:He; do 2 eexists;
          (split; [done|]); [do 2 eexists; by split|done].
    + do 2 eexists. split; [done|]. do 2 eexists. by split.
  - destruct (exn_is_Exception e) eqn:He; do 2 eexists;
      (split; [done|]); [do 2 eexists; by split|done].
Qed.

Lemma check_campus_ip_catches args w :
  ∃ r w',
    check_campus_ip cfg ill_typed_send args w = (r, w')
    ∧ match r with
      | Ok v => ∃ items ok, v = VDict items ∧ assoc (U "ok") items = Some ok
      | Raise e => exn_is_Exception e = false
      end.
Proof.
  unfold check_campus_ip. unfold try_except.
  match goal with |- context [match ?body w with _ => _ end] =>
    destruct (body w) as [[v|e] w'] eqn:E
  end.
  - revert E. run_eff.
    destruct (requests_get _ _ _ _) as [[resp|e] n]; [|done].
    destruct (raise_for_status resp); [|done].
    destruct (resp_json resp) as [data|e]; [|done].
    repeat (destruct (py_get data _ _); [|done]).
    destruct (send_email_to_recipients_py _ _ _ _ _ _ _ _) as [[results|e] w2];
      [|done].
    intros [= <- <-]. do 2 eexists. split; [done|]. do 2 eexists. by split.
  - destruct (exn_is_Exception e) eqn:He; do 2 eexists;
      (split; [done|]); [do 2 eexists; by split|done].
Qed.

(** X15.  Dispatching [device_health] or [check_campus_ip] never ends
    in a [handler_exception]: whenever the dispatcher returns, the
    outcome has [handled] true and the handler's dictionary, with its
    [ok] field, as [handler_result]; what went wrong is reported
    there. *)
Theorem dispatch_catching_handlers cmd meta (st : state MailWorld) outcome st' :
  name cmd = U "device_health" ∨ name cmd = U "check_campus_ip" →
  handle_command (loaded_registry cfg ill_typed_send) cmd meta st
  = (Ok outcome, st') →
  dict_get outcome (U "handled") = Some (VBool true)
  ∧ ∃ items ok,
      dict_get outcome (U "handler_result") = Some (VDict items)
      ∧ assoc (U "ok") items = Some ok.
Proof.
  intros Hname. run_dispatcher. unfold loaded_registry.
  destruct (module_registry_lookup (check_campus_ip cfg ill_typed_send)
              (self_health cfg) (device_health cfg))
    as (Hc & _ & Hd & _).
  destruct Hname as [-> | ->].
  - rewrite Hd. cbn [logged world].
    destruct (device_health_catches (VStr <$> args cmd) (world st))
      as (r & w' & -> & Hr).
    destruct r as [v|e].
    + destruct Hr as (items & ok & -> & Hok). intros [= <- _].
      split; [done|]. by exists items, ok.
    + by rewrite Hr.
  - rewrite Hc. cbn [logged world].
    destruct (check_campus_ip_catches (VStr <$> args cmd) (world st))
      as (r & w' & -> & Hr).
    destruct r as [v|e].
    + destruct Hr as (items & ok & -> & Hok). intros [= <- _].
      split; [done|]. by exists items, ok.
    + by rewrite Hr.
Qed.

(** X16.  [self_health] catches nothing: when the mail server cannot
    be reached, dispatching [health] ends in the [handler_exception]
    outcome with the [repr] of the connection error, after the one
    attempt to connect.  The error is one of the standard library,
    whose class keeps the [__repr__] of [BaseException]. *)
Theorem dispatch_health_server_down cmd meta (st : state MailWorld) e n :
  name cmd = U "health" →
  smtp_connect SMTP_HOST SMTP_PORT 30 (net (world st)) = (Raise e, n) →
  exn_is_Exception e = true →
  has_default_repr e →
  let outcome := VDict [
    (U "handled", VBool false);
    (U "reason", VStr (U "handler_exception"));
    (U "command", VStr (name cmd));
    (U "args", VList (VStr <$> args cmd));
    (U "meta", meta);
    (U "error", VStr (repr_exn e))] in
  handle_command (loaded_registry cfg ill_typed_send) cmd meta st
  = (Ok outcome,
     mk_state
       (logged st ++ [
          mk_log INFO (U "COMMAND_HANDLE_START name=%s args=%s meta=%s")
            [VStr (name cmd); VList (VStr <$> args cmd); meta];
          mk_log ERROR (U "COMMAND_HANDLER_ERROR name=%s error=%s")
            [VStr (name cmd); VStr (repr_exn e)];
          mk_log INFO (U "COMMAND_HANDLE_END result=%s") [outcome]])
       (mk_world (events (world st) ++ [EvSMTP SMTP_HOST SMTP_PORT 30])
          (send_logged (world st)) n)).
Proof.
  intros Hname Hconn He Hrepr outcome. subst outcome.
  run_dispatcher. unfold loaded_registry.
  destruct (module_registry_lookup (check_campus_ip cfg ill_typed_send)
              (self_health cfg) (device_health cfg))
    as (_ & Hh & _ & _).
  rewrite Hname, Hh. cbn [logged world].
  unfold self_health, now_ts, send_email_to_recipients.
  run_eff. rewrite Hconn, He. cbn [logged world].
  rewrite !Hrepr. cbn [logged world]. by rewrite <- !app_assoc.
Qed.

(** X17.  Whatever its arguments, [self_health] hands mail to the
    server for one fixed address only; when it returns, its result is a
    dictionary whose [result] field is the one-entry list for that
    address, and it has not paused. *)
Theorem self_health_result args w r w' :
  self_health cfg args w = (r, w') →
  ∃ evs,
    events w' = events w ++ evs
    ∧ (∀ from_addr to_addrs text,
         EvSendmail from_addr to_addrs text ∈ evs →
         to_addrs = [U "zhangbuqiu@gmail.com"])
    ∧ ∀ v, r = Ok v →
        filter is_sleep evs = []
        ∧ ∃ d, v = VDict [(U "result", VList [d])]
               ∧ is_result_for (U "zhangbuqiu@gmail.com") d.
Proof.
  unfold self_health, now_ts.
  unfold mbind at 1, Eff_bind at 1, reads at 1.
  unfold mbind at 1, Eff_bind at 1.
  destruct (send_email_to_recipients _ _ _ _ _ _ _) as [rs ws] eqn:E.
  apply send_run in E
    as [(e & n & _ & -> & ->)
       |(n & tls & pre & post & logs & _ & Hev & _ & _ & Hpre & _ & Hall & Hres)].
  - intros [= <- <-]. eexists. split; [reflexivity|]. split; [|done].
    intros f tos text Hin. by apply list_elem_of_singleton in Hin.
  - assert (∀ ev, ev ∈ pre → is_sleep ev = false
              ∧ ∀ a b c, ev ≠ EvSendmail a b c) as Hhs.
    { intros ev Hin. destruct Hpre as [k Hk].
      assert (ev ∈ handshake cfg tls) as Hh
        by (rewrite Hk; apply elem_of_app; by left).
      destruct tls; cbn in Hh;
        repeat (apply elem_of_cons in Hh as [->|Hh]; [done|]);
        by apply elem_of_nil in Hh. }
    rewrite Forall_forall in Hall.
    intros Heq.
    assert (r = (results ← rs; Ok (VDict [(U "result", VList results)]))
            ∧ w' = ws) as [-> ->].
    { destruct rs; unfold mret, Eff_ret in Heq; by simplify_eq. }
    clear Heq. eexists. split; [exact Hev|]. split.
    + intros f tos text Hin. rewrite !elem_of_app in Hin.
      destruct Hin as [Hin|[Hin|[Hin|Hin]]].
      * by apply list_elem_of_singleton in Hin.
      * by destruct (Hhs _ Hin) as [_ Hx], (Hx f tos text).
      * destruct (Hall _ Hin) as (_ & to_addr & [= ->] & Hto).
        by apply list_elem_of_singleton in Hto as ->.
      * by apply list_elem_of_singleton in Hin.
    + intros v Hv. destruct rs as [results|e]; [|done].
      injection Hv as <-.
      destruct (Hres results eq_refl) as (Hf2 & _ & Hsleep).
      split.
      * assert (filter is_sleep pre = []) as H3.
        { destruct Hpre as [k Hk].
          assert (filter is_sleep (handshake cfg tls) = []) as Hnone
            by (by destruct tls).
          rewrite Hk, filter_app in Hnone.
          by apply app_eq_nil in Hnone as [? _]. }
        rewrite !filter_app, H3.
        by apply nil_length_inv in Hsleep as ->.
      * inversion Hf2 as [|? d ? ds Hd Hds]; subst.
        inversion Hds; subst. by eauto.
Qed.

End HandlerFacts.

(** * The gateway *)

Ltac run_gateway :=
  unfold mbind, Eff_bind, M_bind, mret, Eff_ret, M_ret, try_except_Exception,
    call_pure, lift_world, logger_info, logger_warning, logger_call;
  cbn [logged world].

Section GatewayFacts.
Context {P : Platform}.
Variable ill_typed_send : pyval → pyval → pyval → pyval → pyval → Eff MailWorld pyval.
Implicit Types (cfg : Config) (req : request) (st : state MailWorld).

Lemma check_api_key_true cfg req :
  req_header req (U "X-API-KEY") = Some (API_KEY cfg) →
  check_api_key cfg req = true.
Proof. intros H. unfold check_api_key. by rewrite bool_decide_eq_true_2. Qed.

(** X18.  A request whose [X-API-KEY] header is absent or differs from
    the configured key is answered with status 401 and the error
    [Unauthorized]; its body is not read, nothing is logged and nothing
    outside is touched. *)
Theorem send_email_unauthorized cfg req st :
  req_header req (U "X-API-KEY") ≠ Some (API_KEY cfg) →
  send_email cfg ill_typed_send req st
  = (Ok (VDict [(U "error", VStr (U "Unauthorized"))], 401%Z), st).
Proof.
  intros H. unfold send_email, check_api_key.
  by rewrite bool_decide_eq_false_2.
Qed.

(** X19.  The settings that pass the check at the top of the module are
    the three values of the environment, none of them empty; so with
    such settings a request without the header, or with an empty one,
    is never authorised. *)
Theorem loaded_key_required getenv message cfg req :
  load_config getenv message = Ok cfg →
  (getenv (U "EMAIL_FROM") = Some (EMAIL_FROM cfg) ∧ EMAIL_FROM cfg ≠ [])
  ∧ (getenv (U "EMAIL_PASSWORD") = Some (EMAIL_PASSWORD cfg)
     ∧ EMAIL_PASSWORD cfg ≠ [])
  ∧ (getenv (U "API_KEY") = Some (API_KEY cfg) ∧ API_KEY cfg ≠ [])
  ∧ (req_header req (U "X-API-KEY") = None
     ∨ req_header req (U "X-API-KEY") = Some [] →
     check_api_key cfg req = false).
Proof.
  unfold load_config.
  destruct (getenv (U "EMAIL_FROM")) as [f|]; [|done].
  destruct (getenv (U "EMAIL_PASSWORD")) as [p|]; [|done].
  destruct (getenv (U "API_KEY")) as [k|]; [|done].
  destruct f as [|a f], p as [|b p], k as [|c k]; try done.
  intros [= <-]. unfold check_api_key. cbn.
  split; [done|]. split; [done|]. split; [done|].
  intros [-> | ->]; by apply bool_decide_eq_false_2.
Qed.

(** X20.  When the body of an authorised request cannot be read as
    JSON, the answer has status 400 and the error [Invalid JSON: ]
    followed by the text of the exception; nothing is logged and
    nothing outside is touched. *)
Theorem send_email_invalid_json cfg req st e :
  req_header req (U "X-API-KEY") = Some (API_KEY cfg) →
  req_get_json req = Raise e →
  exn_is_Exception e = true →
  send_email cfg ill_typed_send req st
  = (Ok (VDict [(U "error", VStr (U "Invalid JSON: " ++ str_exn e))], 400%Z),
     st).
Proof.
  intros Hkey Hjson He. unfold send_email.
  rewrite (check_api_key_true _ _ Hkey). cbn [negb].
  run_gateway. by rewrite Hjson, He.
Qed.

(** X21.  A body that is valid JSON but not an object (a list, a
    string, a number, [null]) is not answered: the first [data.get]
    raises an [AttributeError] that nothing in the function catches. *)
Theorem send_email_body_not_an_object cfg req st data :
  req_header req (U "X-API-KEY") = Some (API_KEY cfg) →
  req_get_json req = Ok data →
  (∀ items, data ≠ VDict items) →
  send_email cfg ill_typed_send req st
  = (Raise (AttributeError (py_type_name data) (U "get")), st).
Proof.
  intros Hkey Hjson Hdata. unfold send_email.
  rewrite (check_api_key_true _ _ Hkey). cbn [negb].
  run_gateway. rewrite Hjson.
  destruct data; try done. by destruct (Hdata items).
Qed.

(** X22.  When [email_to] is missing from the body or is not a list,
    the answer has status 400 and the error [email_to must be a list];
    no mail server is contacted, and at most the request is logged. *)
Theorem send_email_recipients_not_a_list cfg req st items :
  (∀ v e, json_dumps v = Raise e → exn_is_Exception e = true) →
  req_header req (U "X-API-KEY") = Some (API_KEY cfg) →
  req_get_json req = Ok (VDict items) →
  (∀ xs, assoc (U "email_to") items ≠ Some (VList xs)) →
  ∃ logs,
    send_email cfg ill_typed_send req st
    = (Ok (VDict [(U "error", VStr (U "email_to must be a list"))], 400%Z),
       mk_state (logged st ++ logs) (world st))
    ∧ (length logs ≤ 1)%nat.
Proof.
  intros Hsoft Hkey Hjson Hlist. unfold send_email.
  rewrite (check_api_key_true _ _ Hkey). cbn [negb].
  run_gateway. rewrite Hjson. unfold py_get.
  assert (is_list match assoc (U "email_to") items with
                  | Some x => x
                  | None => VNone
                  end = false) as Hno.
  { destruct (assoc (U "email_to") items) as [[]|]; try done.
    by destruct (Hlist xs). }
  set (email_to := match assoc (U "email_to") items with
                   | Some x => x
                   | None => VNone
                   end) in *.
  destruct (py_truthy _);
    (destruct (json_dumps email_to) as [rj|e1] eqn:E1;
       [destruct (json_dumps (VDict items)) as [bj|e2] eqn:E2|]);
    rewrite ?(Hsoft _ _ E1), ?(Hsoft _ _ E2), Hno; cbn [negb logged world];
    first [ eexists; split; [reflexivity|]; cbn; lia
          | exists []; rewrite app_nil_r; destruct st; split; [done|cbn; lia] ].
Qed.

(** X23.  With a list of recipients, the request is passed on to
    [send_email_to_recipients] with the fields of the body, [None] for
    a missing one, and [html_context] in place of a missing or empty
    [html_content].  A result is answered with status 200; an
    exception of class [Exception] is answered with status 500 and its
    [repr], after one [GLOBAL_FAIL] record in the send log; any other
    exception is not answered. *)
Theorem send_email_outcome cfg req st items xs r w' :
  (∀ v e, json_dumps v = Raise e → exn_is_Exception e = true) →
  req_header req (U "X-API-KEY") = Some (API_KEY cfg) →
  req_get_json req = Ok (VDict items) →
  assoc (U "email_to") items = Some (VList xs) →
  let get k := match assoc k items with Some x => x | None => VNone end in
  let html_content :=
    if py_truthy (get (U "html_content")) then get (U "html_content")
    else get (U "html_context") in
  send_email_to_recipients_py cfg ill_typed_send (get (U "subject"))
    (get (U "text_content")) html_content (get (U "from_name")) (VList xs)
    (world st) = (r, w') →
  ∃ logs,
    (length logs ≤ 1)%nat
    ∧ send_email cfg ill_typed_send req st
      = match r with
        | Ok results =>
            (Ok (VDict [(U "status", VStr (U "ok")); (U "results", results)],
                 200%Z),
             mk_state (logged st ++ logs) w')
        | Raise e =>
            if exn_is_Exception e then
              (Ok (VDict [
                     (U "error", VStr (U "Failed to send emails"));
                     (U "detail", VStr (repr_exn e))], 500%Z),
               mk_state (logged st ++ logs)
                 (mk_world (events w')
                    (send_logged w'
                     ++ [mk_log ERROR (U "GLOBAL_FAIL subject=%s error=%s")
                           [get (U "subject"); VStr (repr_exn e)]])
                    (net w')))
            else (Raise e, mk_state (logged st ++ logs) w')
        end.
Proof.
  intros Hsoft Hkey Hjson Hlist get html_content. subst get html_content.
  cbv beta. unfold send_email.
  rewrite (check_api_key_true _ _ Hkey). cbn [negb].
  run_gateway. rewrite Hjson. unfold py_get, send_logger_call.
  rewrite Hlist. cbn [is_list negb].
  destruct (py_truthy _); intros Hrun;
    (destruct (json_dumps (VList xs)) as [rj|e1] eqn:E1;
       [destruct (json_dumps (VDict items)) as [bj|e2] eqn:E2|]);
    rewrite ?(Hsoft _ _ E1), ?(Hsoft _ _ E2); cbn [negb logged world];
    rewrite Hrun.
  all: destruct r as [results|e]; [|destruct (exn_is_Exception e)].
  all: cbn [logged world events send_logged net].
  all: first [ eexists; split; [|reflexivity]; cbn; lia
             | exists []; rewrite app_nil_r; split; [cbn; lia|done] ].
Qed.

End GatewayFacts.

(** * Reading the inbox *)

Section ReaderFacts.
Context {P : Platform}.

Lemma part_text_Exception part e :
  part_text part = Raise e → exn_is_Exception e = true.
Proof.
  unfold part_text. destruct (get_payload_decode part) as [b|].
  - apply bytes_decode_Exception.
  - by intros [= <-].
Qed.

(** A loop over the parts ends without an exception. *)
Lemma find_text_returns select parts : ∃ found, find_text select parts = Ok found.
Proof.
  induction parts as [|part parts IH]; [by eexists|].
  cbn [find_text]. destruct (select part); [|done].
  destruct (part_text part) as [s|e] eqn:E; [by eexists|].
  by rewrite (part_text_Exception _ _ E).
Qed.

(** The loop passes over the parts that are not selected and those
    that do not decode. *)
Lemma find_text_first select before part after s :
  (∀ p, p ∈ before → select p = true → ∃ e, part_text p = Raise e) →
  select part = true →
  part_text part = Ok s →
  find_text select (before ++ part :: after) = Ok (Some s).
Proof.
  intros Hbefore Hsel Htext.
  induction before as [|p before IH]; cbn [app find_text].
  - by rewrite Hsel, Htext.
  - destruct (select p) eqn:Hp.
    + destruct (Hbefore p) as [e He]; [by left|done|].
      rewrite He, (part_text_Exception _ _ He).
      apply IH. intros q Hq. apply Hbefore. by right.
    + apply IH. intros q Hq. apply Hbefore. by right.
Qed.

Lemma find_text_none select parts :
  (∀ p, p ∈ parts → select p = true → ∃ e, part_text p = Raise e) →
  find_text select parts = Ok None.
Proof.
  induction parts as [|p parts IH]; [done|].
  intros Hall. cbn [find_text]. destruct (select p) eqn:Hp.
  - destruct (Hall p) as [e He]; [by left|done|].
    rewrite He, (part_text_Exception _ _ He).
    apply IH. intros q Hq. apply Hall. by right.
  - apply IH. intros q Hq. apply Hall. by right.
Qed.

(** X24.  [extract_text_body] returns a text for every message: a part
    that cannot be decoded is passed over, a body in an unknown charset
    is decoded as UTF-8, and a message without a usable part gives the
    empty text. *)
Theorem extract_text_body_returns msg : ∃ s, extract_text_body msg = Ok s.
Proof.
  unfold extract_text_body. destruct (is_multipart msg).
  - destruct (find_text_returns is_plain_text (walk msg)) as [[s|] ->];
      [by eexists|].
    destruct (find_text_returns is_html (walk msg)) as [[s|] ->]; by eexists.
  - destruct (get_payload_decode msg) as [[|c payload]|]; [by eexists| |by eexists].
    destruct (bytes_decode (charset_of msg) (c :: payload)) as [s|e] eqn:E;
      [by eexists|].
    rewrite (bytes_decode_Exception _ _ _ E). apply bytes_decode_utf8.
Qed.

(** X25.  In a multipart message the body is the text of the first
    part, in the order of [walk], that has type [text/plain], is not an
    attachment and can be decoded, whatever parts of type [text/html]
    come before it. *)
Theorem extract_text_body_prefers_plain msg before part after s :
  is_multipart msg = true →
  walk msg = before ++ part :: after →
  is_plain_text part = true →
  part_text part = Ok s →
  (∀ p, p ∈ before → is_plain_text p = true → ∃ e, part_text p = Raise e) →
  extract_text_body msg = Ok s.
Proof.
  intros Hmulti Hwalk Hplain Htext Hbefore. unfold extract_text_body.
  by rewrite Hmulti, Hwalk, (find_text_first _ _ _ _ s Hbefore Hplain Htext).
Qed.

(** X26.  A part of type [text/html] gives the body only when no plain
    text part of the message can be decoded, and then it is the first
    HTML part that can be decoded. *)
Theorem extract_text_body_html_fallback msg before part after s :
  is_multipart msg = true →
  walk msg = before ++ part :: after →
  is_html part = true →
  part_text part = Ok s →
  (∀ p, p ∈ walk msg → is_plain_text p = true → ∃ e, part_text p = Raise e) →
  (∀ p, p ∈ before → is_html p = true → ∃ e, part_text p = Raise e) →
  extract_text_body msg = Ok s.
Proof.
  intros Hmulti Hwalk Hhtml Htext Hplain Hbefore. unfold extract_text_body.
  rewrite Hmulti, (find_text_none _ _ Hplain). unfold mbind, result_bind.
  by rewrite Hwalk, (find_text_first _ _ _ _ s Hbefore Hhtml Htext).
Qed.

End ReaderFacts.

Section ImapFacts.
Context {CM : CaseMapping} {P : Platform} {PR : PyRepr MailWorld}.
Implicit Types (reg : gmap str (handler MailWorld)) (st : state MailWorld).

Ltac open_message H :=
  destruct H as (data & raw & Hfetch & Hraw & -> & Hsubject & Hfrom);
  unfold process_single_imap_message; run_gateway; unfold io;
  rewrite Hfetch; cbn [fst snd logged world events send_logged net];
  rewrite (bool_decide_eq_true_2 (U "OK" = U "OK")) by done; cbn [negb];
  rewrite Hraw, Hsubject, Hfrom;
  cbn [fst snd logged world events send_logged net].

(** X27.  When the fetch of a message does not answer [OK], nothing
    else is done with the message: it is not parsed, nothing is
    logged, and it is not marked as seen. *)
Theorem imap_fetch_not_ok reg num st typ data n :
  imap_fetch num (U "(RFC822)") (net (world st)) = (Ok (typ, data), n) →
  typ ≠ U "OK" →
  process_single_imap_message reg num st = (Ok tt, fetched num st n).
Proof.
  intros Hfetch Htyp.
  unfold process_single_imap_message; run_gateway; unfold io.
  rewrite Hfetch. cbn [fst snd].
  by rewrite bool_decide_eq_false_2.
Qed.

(** X28.  A message whose subject, stripped and in upper case, is not
    [COMMAND] is marked as seen and reported with one
    [IMAP_SKIP_NON_COMMAND] record; its body is not read and the
    dispatcher is not called, whatever the registry holds. *)
Theorem imap_skips_other_subjects reg num st n msg subject from_raw n' :
  fetches num (net (world st)) n msg subject from_raw →
  str_upper (str_strip subject) ≠ U "COMMAND" →
  imap_store num (U "+FLAGS") (U "\Seen") n = (Ok tt, n') →
  process_single_imap_message reg num st
  = (Ok tt,
     mk_state
       (logged st
        ++ [mk_log INFO (U "IMAP_SKIP_NON_COMMAND subject=%s from=%s")
              [VStr subject; VStr from_raw]])
       (world (marked_seen num (fetched num st n) n'))).
Proof.
  intros Hmsg Hsubj Hstore. open_message Hmsg.
  rewrite bool_decide_eq_false_2 by done.
  cbn [negb logged world events send_logged net]. by rewrite Hstore.
Qed.

(** X29.  A message with subject [COMMAND] whose body holds a command
    is handled in this order: one [IMAP_COMMAND_RECEIVED] record, the
    dispatcher with the subject, the sender and the message id as
    [meta], one [IMAP_COMMAND_RESULT] record with the outcome as JSON,
    and only then the mark as seen. *)
Theorem imap_runs_command reg num st n msg subject from_raw body cmd outcome
    st2 result_json n' :
  fetches num (net (world st)) n msg subject from_raw →
  str_upper (str_strip subject) = U "COMMAND" →
  extract_text_body msg = Ok body →
  parse_command body = Ok (Some cmd) →
  let meta := imap_meta msg subject from_raw in
  let received :=
    mk_log INFO (U "IMAP_COMMAND_RECEIVED name=%s args=%s meta=%s")
      [VStr (name cmd); VList (VStr <$> args cmd); meta] in
  handle_command reg cmd meta
    (mk_state (logged st ++ [received]) (world (fetched num st n)))
  = (Ok outcome, st2) →
  json_dumps outcome = Ok result_json →
  imap_store num (U "+FLAGS") (U "\Seen") (net (world st2)) = (Ok tt, n') →
  process_single_imap_message reg num st
  = (Ok tt,
     marked_seen num
       (mk_state
          (logged st2
           ++ [mk_log INFO (U "IMAP_COMMAND_RESULT name=%s result=%s")
                 [VStr (name cmd); VStr result_json]])
          (world st2))
       n').
Proof.
  intros Hmsg Hsubj Hbody Hcmd meta received Hrun Hjson Hstore.
  subst meta received. open_message Hmsg.
  rewrite Hsubj, bool_decide_eq_true_2 by done.
  cbn [negb]. rewrite Hbody, Hcmd.
  cbn [logged world events send_logged net].
  unfold fetched, imap_meta in Hrun. cbn [world] in Hrun. rewrite Hrun.
  rewrite Hjson. cbn [logged world events send_logged net]. by rewrite Hstore.
Qed.

(** X30.  When the dispatcher lets an exception through, or its
    outcome cannot be written as JSON, the exception leaves
    [process_single_imap_message] with the state as the dispatcher left
    it: the message is not marked as seen and no result is logged. *)
Theorem imap_failure_leaves_unseen reg num st n msg subject from_raw body cmd
    r st2 e :
  fetches num (net (world st)) n msg subject from_raw →
  str_upper (str_strip subject) = U "COMMAND" →
  extract_text_body msg = Ok body →
  parse_command body = Ok (Some cmd) →
  let meta := imap_meta msg subject from_raw in
  let received :=
    mk_log INFO (U "IMAP_COMMAND_RECEIVED name=%s args=%s meta=%s")
      [VStr (name cmd); VList (VStr <$> args cmd); meta] in
  handle_command reg cmd meta
    (mk_state (logged st ++ [received]) (world (fetched num st n)))
  = (r, st2) →
  r = Raise e ∨ (∃ outcome, r = Ok outcome ∧ json_dumps outcome = Raise e) →
  process_single_imap_message reg num st = (Raise e, st2).
Proof.
  intros Hmsg Hsubj Hbody Hcmd meta received Hrun Hfail.
  subst meta received. open_message Hmsg.
  rewrite Hsubj, bool_decide_eq_true_2 by done.
  cbn [negb]. rewrite Hbody, Hcmd.
  cbn [logged world events send_logged net].
  unfold fetched, imap_meta in Hrun. cbn [world] in Hrun. rewrite Hrun.
  destruct Hfail as [->|(outcome & -> & Hjson)]; [done|].
  by rewrite Hjson.
Qed.

End ImapFacts.

(** * The properties above on the stand-in platform *)

(** X14 where the host does not answer the ping. *)
Lemma device_health_ping_failed_witness :
  device_health (P := good_platform) test_config []
    (test_world true true test_net)
  = (Ok (VDict [
       (U "ok", VStr (U "False"));
       (U "ping", VStr (U "failed"));
       (U "stdout", VStr []);
       (U "stderr", VStr [])]),
     mk_world (P := good_platform)
       [EvRun [U "ping"; U "-c"; U "1"; U "-W"; U "1"; U "10.66.66.2"]] []
       test_net).
Proof.
  apply (device_health_ping_failed (P := good_platform) test_config []
           (test_world true true test_net) (mk_completed 1 [] []) test_net);
    [reflexivity|done].
Defined.

(** X15 on the same host: the failed ping is a handled command. *)
Lemma dispatch_catching_handlers_witness :
  let outcome := VDict [
    (U "handled", VBool true);
    (U "command", VStr (U "device_health"));
    (U "args", VList []);
    (U "meta", VNone);
    (U "handler_result", VDict [
       (U "ok", VStr (U "False"));
       (U "ping", VStr (U "failed"));
       (U "stdout", VStr []);
       (U "stderr", VStr [])])] in
  dict_get outcome (U "handled") = Some (VBool true)
  ∧ ∃ items ok,
      dict_get outcome (U "handler_result") = Some (VDict items)
      ∧ assoc (U "ok") items = Some ok.
Proof.
  apply (dispatch_catching_handlers (CM := ascii_case) (P := good_platform)
           (PR := default_repr)
           test_config no_ill_typed_send
           (mk_Command (U "device_health") [] (U "/device_health")) VNone
           (test_state true true test_net) _
           (handle_command (PR := default_repr) (test_registry true true)
              (mk_Command (U "device_health") [] (U "/device_health")) VNone
              (test_state true true test_net)).2);
    [by left|vm_compute; reflexivity].
Defined.

(** X16 on a server that cannot be reached. *)
Lemma dispatch_health_server_down_witness :
  (handle_command (PR := default_repr) (test_registry false true)
     (mk_Command (U "health") [] (U "/health")) VNone
     (test_state false true test_net)).1
  = Ok (VDict [
      (U "handled", VBool false);
      (U "reason", VStr (U "handler_exception"));
      (U "command", VStr (U "health"));
      (U "args", VList []);
      (U "meta", VNone);
      (U "error", VStr (repr_exn ConnectionRefusedError))]).
Proof.
  unfold test_registry.
  rewrite (dispatch_health_server_down (CM := ascii_case)
             (P := test_platform false true) (PR := default_repr)
             test_config no_ill_typed_send
             (mk_Command (U "health") [] (U "/health")) VNone
             (test_state false true test_net) ConnectionRefusedError test_net
             eq_refl eq_refl eq_refl (λ _, eq_refl)).
  reflexivity.
Defined.

(** X17 on the platform where everything works. *)
Lemma self_health_result_witness :
  ∃ evs,
    events (self_health (P := good_platform) test_config []
              (test_world true true test_net)).2
    = [] ++ evs
    ∧ (∀ from_addr to_addrs text,
         EvSendmail from_addr to_addrs text ∈ evs →
         to_addrs = [U "zhangbuqiu@gmail.com"])
    ∧ ∀ v,
        (self_health (P := good_platform) test_config []
           (test_world true true test_net)).1 = Ok v →
        filter is_sleep evs = []
        ∧ ∃ d, v = VDict [(U "result", VList [d])]
               ∧ is_result_for (U "zhangbuqiu@gmail.com") d.
Proof.
  apply (self_health_result (P := good_platform) test_config []
           (test_world true true test_net)).
  apply surjective_pairing.
Defined.

(** X18 on a request with another key. *)
Lemma send_email_unauthorized_witness :
  send_email (P := good_platform) test_config no_ill_typed_send
    (test_request (Some (U "guess")) (Ok (VDict test_body)))
    (test_state true true test_net)
  = (Ok (VDict [(U "error", VStr (U "Unauthorized"))], 401%Z),
     test_state true true test_net).
Proof.
  apply (send_email_unauthorized (P := good_platform)).
  discriminate.
Defined.

(** X19 on the settings of the runs and a request without a key. *)
Lemma loaded_key_required_witness :
  (test_getenv (U "EMAIL_FROM") = Some (U "me@qq.com") ∧ U "me@qq.com" ≠ [])
  ∧ (test_getenv (U "EMAIL_PASSWORD") = Some (U "secret") ∧ U "secret" ≠ [])
  ∧ (test_getenv (U "API_KEY") = Some (U "key") ∧ U "key" ≠ [])
  ∧ (req_header (test_request None (Ok (VDict test_body))) (U "X-API-KEY")
     = None
     ∨ req_header (test_request None (Ok (VDict test_body))) (U "X-API-KEY")
       = Some [] →
     check_api_key test_config (test_request None (Ok (VDict test_body)))
     = false).
Proof.
  apply (loaded_key_required test_getenv (U "not configured") test_config
           (test_request None (Ok (VDict test_body)))).
  reflexivity.
Defined.

(** X20 on a body that is not JSON. *)
Lemma send_email_invalid_json_witness :
  send_email (P := good_platform) test_config no_ill_typed_send
    (test_request (Some (U "key")) (Raise (ValueError (U "'no JSON'"))))
    (test_state true true test_net)
  = (Ok (VDict [(U "error",
                 VStr (U "Invalid JSON: " ++ U "ValueError('no JSON')"))],
         400%Z),
     test_state true true test_net).
Proof.
  apply (send_email_invalid_json (P := good_platform) no_ill_typed_send
           test_config
           (test_request (Some (U "key")) (Raise (ValueError (U "'no JSON'"))))
           (test_state true true test_net) (ValueError (U "'no JSON'")));
    reflexivity.
Defined.

(** X21 on a body that is a JSON list. *)
Lemma send_email_body_not_an_object_witness :
  send_email (P := good_platform) test_config no_ill_typed_send
    (test_request (Some (U "key")) (Ok (VList [])))
    (test_state true true test_net)
  = (Raise (AttributeError (U "list") (U "get")),
     test_state true true test_net).
Proof.
  apply (send_email_body_not_an_object (P := good_platform) no_ill_typed_send
           test_config (test_request (Some (U "key")) (Ok (VList [])))
           (test_state true true test_net) (VList []));
    [reflexivity|reflexivity|discriminate].
Defined.

(** X22 on a body with one recipient given as a string. *)
Lemma send_email_recipients_not_a_list_witness :
  ∃ logs,
    send_email (P := good_platform) test_config no_ill_typed_send
      (test_request (Some (U "key"))
         (Ok (VDict [(U "email_to", VStr (U "a@x.org"))])))
      (test_state true true test_net)
    = (Ok (VDict [(U "error", VStr (U "email_to must be a list"))], 400%Z),
       mk_state ([] ++ logs) (test_world true true test_net))
    ∧ (length logs ≤ 1)%nat.
Proof.
  apply (send_email_recipients_not_a_list (P := good_platform)
           no_ill_typed_send test_config
           (test_request (Some (U "key"))
              (Ok (VDict [(U "email_to", VStr (U "a@x.org"))])))
           (test_state true true test_net)
           [(U "email_to", VStr (U "a@x.org"))]);
    [discriminate|reflexivity|reflexivity|discriminate].
Defined.

(** X23 on a body with one recipient: the mail is sent, with the HTML
    found under [html_context]. *)
Lemma send_email_outcome_witness :
  ∃ logs,
    (length logs ≤ 1)%nat
    ∧ send_email (P := good_platform) test_config no_ill_typed_send
        (test_request (Some (U "key")) (Ok (VDict test_body)))
        (test_state true true test_net)
      = (Ok (VDict [
               (U "status", VStr (U "ok"));
               (U "results", VList [result_entry (U "a@x.org") true []])],
             200%Z),
         mk_state ([] ++ logs)
           (send_email_to_recipients (P := good_platform) test_config
              (U "subject") (U "text") (Some (U "<p>text</p>")) (U "Me")
              [U "a@x.org"] (test_world true true test_net)).2).
Proof.
  apply (send_email_outcome (P := good_platform) no_ill_typed_send test_config
           (test_request (Some (U "key")) (Ok (VDict test_body)))
           (test_state true true test_net) test_body [VStr (U "a@x.org")]
           (Ok (VList [result_entry (U "a@x.org") true []])));
    [discriminate|reflexivity..].
Defined.

(** X25 on a message whose HTML part comes first. *)
Lemma extract_text_body_prefers_plain_witness :
  extract_text_body (P := good_platform)
    (test_multipart (html_first_parts ++ [readable_part; html_part]))
  = Ok (U "/health").
Proof.
  apply (extract_text_body_prefers_plain (P := good_platform) _
           (test_multipart (html_first_parts ++ [readable_part; html_part])
            :: html_first_parts)
           readable_part [html_part]);
    [reflexivity..|].
  intros p Hp.
  repeat (apply elem_of_cons in Hp as [->|Hp]; [by eauto|]).
  by apply elem_of_nil in Hp.
Defined.

(** X26 on a message whose only plain part cannot be read. *)
Lemma extract_text_body_html_fallback_witness :
  extract_text_body (P := good_platform)
    (test_multipart (unreadable_parts ++ [html_part]))
  = Ok (U "<p>/health</p>").
Proof.
  apply (extract_text_body_html_fallback (P := good_platform) _
           (test_multipart (unreadable_parts ++ [html_part])
            :: unreadable_parts)
           html_part []);
    [reflexivity..| |].
  - intros p Hp.
    repeat (apply elem_of_cons in Hp as [->|Hp]; [by eauto|]).
    by apply elem_of_nil in Hp.
  - intros p Hp.
    repeat (apply elem_of_cons in Hp as [->|Hp]; [by eauto|]).
    by apply elem_of_nil in Hp.
Defined.

(** X27 on a number that is not in the inbox. *)
Lemma imap_fetch_not_ok_witness :
  process_single_imap_message (CM := ascii_case) (P := good_platform)
    (PR := default_repr)
    (test_registry true true) (U "9") (test_state true true test_net)
  = (Ok tt, fetched (P := good_platform) (U "9")
              (test_state true true test_net) test_net).
Proof.
  apply (imap_fetch_not_ok (CM := ascii_case) (P := good_platform)
           (PR := default_repr)
           (test_registry true true) (U "9") (test_state true true test_net)
           (U "NO") []);
    [reflexivity|discriminate].
Defined.

(** X28 on the message with subject [hello]. *)
Lemma imap_skips_other_subjects_witness :
  process_single_imap_message (CM := ascii_case) (P := good_platform)
    (PR := default_repr)
    (test_registry true true) (U "2") (test_state true true test_net)
  = (Ok tt,
     mk_state
       ([] ++ [mk_log INFO (U "IMAP_SKIP_NON_COMMAND subject=%s from=%s")
                 [VStr (U "hello"); VStr (U "someone@example.com")]])
       (mk_world (P := good_platform)
          [EvFetch (U "2") (U "(RFC822)");
           EvStore (U "2") (U "+FLAGS") (U "\Seen")] [] test_net)).
Proof.
  apply (imap_skips_other_subjects (CM := ascii_case) (P := good_platform)
           (PR := default_repr)
           (test_registry true true) (U "2") (test_state true true test_net)
           test_net (test_message (U "hello" ++ [10] ++ U "/health"))
           (U "hello") (U "someone@example.com") test_net);
    [|discriminate|reflexivity].
  exists (U "hello" ++ [10] ++ U "/health"), (U "hello" ++ [10] ++ U "/health").
  repeat split.
Defined.

(** X29 on the message with subject [Command] and body [/HEALTH now]:
    the health mail is sent before the message is marked as seen. *)
Lemma imap_runs_command_witness :
  let cmd := mk_Command (U "health") [U "now"] (U "/HEALTH now") in
  let meta := VDict [
    (U "subject", VStr (U "Command"));
    (U "from", VStr (U "someone@example.com"));
    (U "message_id", VStr (U "<1@example.com>"))] in
  let received :=
    mk_log INFO (U "IMAP_COMMAND_RECEIVED name=%s args=%s meta=%s")
      [VStr (U "health"); VList [VStr (U "now")]; meta] in
  let st2 :=
    (handle_command (PR := default_repr) (test_registry true true) cmd meta
       (mk_state ([] ++ [received])
          (world (fetched (P := good_platform) (U "1")
                    (test_state true true test_net) test_net)))).2 in
  process_single_imap_message (CM := ascii_case) (P := good_platform)
    (PR := default_repr)
    (test_registry true true) (U "1") (test_state true true test_net)
  = (Ok tt,
     marked_seen (P := good_platform) (U "1")
       (mk_state
          (logged st2
           ++ [mk_log INFO (U "IMAP_COMMAND_RESULT name=%s result=%s")
                 [VStr (U "health"); VStr (U "{}")]])
          (world st2))
       test_net).
Proof.
  apply (imap_runs_command (CM := ascii_case) (P := good_platform)
           (PR := default_repr)
           (test_registry true true) (U "1") (test_state true true test_net)
           test_net (test_message (U "Command" ++ [10] ++ U "/HEALTH now"))
           (U "Command") (U "someone@example.com") (U "/HEALTH now")
           (mk_Command (U "health") [U "now"] (U "/HEALTH now"))
           (VDict [
              (U "handled", VBool true);
              (U "command", VStr (U "health"));
              (U "args", VList [VStr (U "now")]);
              (U "meta", VDict [
                 (U "subject", VStr (U "Command"));
                 (U "from", VStr (U "someone@example.com"));
                 (U "message_id", VStr (U "<1@example.com>"))]);
              (U "handler_result", VDict [
                 (U "result",
                  VList [result_entry (U "zhangbuqiu@gmail.com") true []])])])
           _ (U "{}") test_net);
    [|reflexivity|reflexivity|reflexivity|vm_compute; reflexivity
     |reflexivity|reflexivity].
  exists (U "Command" ++ [10] ++ U "/HEALTH now"),
    (U "Command" ++ [10] ++ U "/HEALTH now").
  repeat split.
Defined.

(** X30 on the same message with a handler that is interrupted. *)
Lemma imap_failure_leaves_unseen_witness :
  let cmd := mk_Command (U "health") [U "now"] (U "/HEALTH now") in
  let meta := VDict [
    (U "subject", VStr (U "Command"));
    (U "from", VStr (U "someone@example.com"));
    (U "message_id", VStr (U "<1@example.com>"))] in
  let received :=
    mk_log INFO (U "IMAP_COMMAND_RECEIVED name=%s args=%s meta=%s")
      [VStr (U "health"); VList [VStr (U "now")]; meta] in
  process_single_imap_message (CM := ascii_case) (P := good_platform)
    (PR := default_repr)
    {[ U "health" := interrupted_handler ]} (U "1")
    (test_state true true test_net)
  = (Raise KeyboardInterrupt,
     mk_state
       [received;
        mk_log INFO (U "COMMAND_HANDLE_START name=%s args=%s meta=%s")
          [VStr (U "health"); VList [VStr (U "now")]; meta]]
       (mk_world (P := good_platform) [EvFetch (U "1") (U "(RFC822)")] []
          test_net)).
Proof.
  apply (imap_failure_leaves_unseen (CM := ascii_case) (P := good_platform)
           (PR := default_repr)
           {[ U "health" := interrupted_handler ]} (U "1")
           (test_state true true test_net)
           test_net (test_message (U "Command" ++ [10] ++ U "/HEALTH now"))
           (U "Command") (U "someone@example.com") (U "/HEALTH now")
           (mk_Command (U "health") [U "now"] (U "/HEALTH now"))
           (Raise KeyboardInterrupt));
    [|reflexivity|reflexivity|reflexivity|vm_compute; reflexivity|by left].
  exists (U "Command" ++ [10] ++ U "/HEALTH now"),
    (U "Command" ++ [10] ++ U "/HEALTH now").
  repeat split.
Defined.
